(** * datafun-05-sql: the DuckDB library pipeline

    A shallow embedding of [src/datafun_05_sql/case_duckdb_library.py].

    The script is glue code around three collaborators: the file system
    (through [pathlib]), the DuckDB engine and the logger.  The
    collaborators are modelled as an environment of oracles that answer
    each call, possibly by raising; the script's own functions are written
    in a state-and-exception monad that records every call it makes in a
    trace.  Properties of the pipeline are properties of that trace and of
    the outcome, for every environment. *)

From Stdlib Require Import List String Ascii Bool ZArith NArith Lia.
From Stdlib Require Import Strings.Byte DecimalString.
Import ListNotations.
Local Open Scope string_scope.
Local Open Scope list_scope.

(* ===================================================================== *)
(** * Python strings *)
(* ===================================================================== *)

(** A Python [str] is represented by its UTF-8 encoding, one [ascii] per
    byte. *)

(** [sep.join(xs)] *)
Fixpoint join (sep : string) (xs : list string) : string :=
  match xs with
  | [] => ""
  | [x] => x
  | x :: rest => x ++ sep ++ join sep rest
  end.

(** ** The strict UTF-8 codec *)

Definition byte_in (lo hi : N) (b : byte) : bool :=
  (lo <=? Byte.to_N b)%N && (Byte.to_N b <=? hi)%N.

(** Continuation byte, 10xxxxxx. *)
Definition cont (b : byte) : bool := byte_in 128 191 b.

(** Well-formed UTF-8 (RFC 3629; what Python's ["utf-8"] codec accepts with
    [errors="strict"]): no overlong form, no surrogate, nothing above
    U+10FFFF, no truncated sequence. *)
Fixpoint utf8_valid (bs : list byte) : bool :=
  match bs with
  | [] => true
  | b0 :: r0 =>
    if byte_in 0 127 b0 then utf8_valid r0
    else
      match r0 with
      | [] => false
      | b1 :: r1 =>
        if byte_in 194 223 b0 then cont b1 && utf8_valid r1
        else
          match r1 with
          | [] => false
          | b2 :: r2 =>
            if byte_in 224 224 b0 then byte_in 160 191 b1 && cont b2 && utf8_valid r2
            else if byte_in 225 236 b0 then cont b1 && cont b2 && utf8_valid r2
            else if byte_in 237 237 b0 then byte_in 128 159 b1 && cont b2 && utf8_valid r2
            else if byte_in 238 239 b0 then cont b1 && cont b2 && utf8_valid r2
            else
              match r2 with
              | [] => false
              | b3 :: r3 =>
                if byte_in 240 240 b0
                then byte_in 144 191 b1 && cont b2 && cont b3 && utf8_valid r3
                else if byte_in 241 243 b0
                then cont b1 && cont b2 && cont b3 && utf8_valid r3
                else if byte_in 244 244 b0
                then byte_in 128 143 b1 && cont b2 && cont b3 && utf8_valid r3
                else false
              end
          end
      end
  end.

(** [bytes.decode("utf-8")]: [None] stands for [UnicodeDecodeError]. *)
Definition utf8_decode (bs : list byte) : option string :=
  if utf8_valid bs then Some (string_of_list_byte bs) else None.

Definition CR : ascii := ascii_of_nat 13.
Definition LF : ascii := ascii_of_nat 10.

(** Text-mode reading with [newline=None]: ["\r\n"] and ["\r"] become
    ["\n"]. *)
Fixpoint universal_newlines (s : string) : string :=
  match s with
  | EmptyString => EmptyString
  | String c r =>
    if Ascii.eqb c CR then
      String LF
        match r with
        | EmptyString => EmptyString
        | String c' r' =>
          if Ascii.eqb c' LF then universal_newlines r' else universal_newlines r
        end
    else String c (universal_newlines r)
  end.

(* ===================================================================== *)
(** * Paths ([pathlib.PurePosixPath]) *)
(* ===================================================================== *)

Record Path : Type := mkPath {
  absolute : bool;         (* anchored at "/" *)
  parts : list string      (* the components below the anchor *)
}.

(** [p / name], for a single plain component. *)
Definition joinpath (p : Path) (name : string) : Path :=
  mkPath (absolute p) (parts p ++ [name]).

Notation "p // name" := (joinpath p name) (at level 40, left associativity).

(** [p.parent]; the anchor and ["."] are their own parents. *)
Definition parent (p : Path) : Path :=
  mkPath (absolute p) (removelast (parts p)).

(** [p.name] *)
Definition name (p : Path) : string := last (parts p) "".

(** [str(p)], on a POSIX system: the components joined by slashes. *)
Definition path_str (p : Path) : string :=
  if absolute p then "/" ++ join "/" (parts p)
  else match parts p with [] => "." | _ => join "/" (parts p) end.

(** [n] applications of [.parent] *)
Fixpoint ancestor (n : nat) (p : Path) : Path :=
  match n with
  | O => p
  | S n' => ancestor n' (parent p)
  end.

(* ===================================================================== *)
(** * Values, result sets, exceptions *)
(* ===================================================================== *)

(** The Python objects a fetched row holds. *)
Inductive Value : Type :=
| VNone
| VBool (b : bool)
| VInt (z : Z)
| VStr (s : string)
| VObj (rendered : string).   (* any other object, given by its [str()] *)

(** [str(v)] *)
Definition str (v : Value) : string :=
  match v with
  | VNone => "None"
  | VBool true => "True"
  | VBool false => "False"
  | VInt z => NilZero.string_of_int (Z.to_int z)
  | VStr s => s
  | VObj s => s
  end.

Definition Row : Type := list Value.

(** One entry of [cursor.description]; entry [0] of the tuple is the column
    name. *)
Record Column : Type := mkColumn {
  col_name : string;
  col_type : string
}.

Inductive Exn : Type :=
| FileNotFoundError (filename : string)
| UnicodeDecodeError
| OSError (msg : string)           (* any other OSError: PermissionError, ... *)
| RuntimeError (msg : string)
| ConnectionError (msg : string)   (* the builtin of that name *)
| DuckDBError (msg : string).      (* duckdb.Error and its subclasses *)

Inductive Outcome (A : Type) : Type :=
| Ok (a : A)
| Raise (e : Exn).
Arguments Ok {A} a.
Arguments Raise {A} e.

(** What [con.execute] returns: the rows [fetchall] will deliver (or the
    exception it will raise) and the description. *)
Record Cursor : Type := mkCursor {
  cur_fetch : Outcome (list Row);
  cur_description : list Column
}.

(** A connection handle. *)
Definition Conn : Type := N.

(** What reading a file as text yields, from what reading its bytes
    yielded. *)
Definition decoded (r : Outcome (list byte)) : Outcome string :=
  match r with
  | Raise e => Raise e
  | Ok bs =>
    match utf8_decode bs with
    | None => Raise UnicodeDecodeError
    | Some s => Ok (universal_newlines s)
    end
  end.

(* ===================================================================== *)
(** * The environment and the trace *)
(* ===================================================================== *)

(** Every call the script makes to a collaborator, with what the
    collaborator answered. *)
Inductive Event : Type :=
| EvLogHeader (title : string)                       (* log_header(LOG, title) *)
| EvInfo (msg : string)                              (* LOG.info(msg) *)
| EvExists (p : Path) (r : Outcome bool)             (* p.exists() *)
| EvMkdir (p : Path) (r : Outcome unit)              (* p.mkdir(parents=True, exist_ok=True) *)
| EvConnect (database : string) (r : Outcome Conn)   (* duckdb.connect(database) *)
| EvRead (p : Path) (r : Outcome (list byte))        (* opening p and reading its bytes *)
| EvExecute (con : Conn) (sql : string) (r : Outcome Cursor)  (* con.execute(sql) *)
| EvFetchall (r : Outcome (list Row))                (* result.fetchall() *)
| EvClose (con : Conn) (r : Outcome unit).           (* con.close() *)

(** The collaborators.  [St] is the state of the outside world (the file
    system and the database); an oracle that can change it returns the new
    state together with its outcome, also when it raises.  Resolving a
    path, asking whether it exists and reading a file change nothing;
    each of them may raise ([resolve] on a loop of symbolic links,
    [exists] on a directory that may not be searched). *)
Record Env : Type := mkEnv {
  St : Type;
  fs_resolve : St -> Path -> Outcome Path;
  fs_exists : St -> Path -> Outcome bool;
  fs_mkdir : St -> Path -> Outcome unit * St;
  fs_read_bytes : St -> Path -> Outcome (list byte);
  db_connect : St -> string -> Outcome Conn * St;
  db_execute : St -> Conn -> string -> Outcome Cursor * St;
  db_close : St -> Conn -> Outcome unit * St
}.

(** The world the script runs in: the outside state and the calls made so
    far, oldest first. *)
Record World (S : Type) : Type := mkWorld {
  ext : S;
  trace : list Event
}.
Arguments mkWorld {S} ext trace.
Arguments ext {S} w.
Arguments trace {S} w.

(* ===================================================================== *)
(** * The monad: state plus Python exceptions *)
(* ===================================================================== *)

(** A computation from a world yields an outcome and the world it leaves
    behind; an exception keeps the effects that happened before it. *)
Definition M (W A : Type) : Type := W -> Outcome A * W.

Definition ret {W A} (a : A) : M W A := fun w => (Ok a, w).

Definition bind {W A B} (c : M W A) (k : A -> M W B) : M W B :=
  fun w =>
    match c w with
    | (Ok a, w') => k a w'
    | (Raise e, w') => (Raise e, w')
    end.

(** [try: body finally: fin].  The [finally] block runs on every exit of
    [body]; if it raises, its exception replaces a pending one. *)
Definition try_finally {W A} (body : M W A) (fin : M W unit) : M W A :=
  fun w =>
    match body w with
    | (r, w') =>
      match fin w' with
      | (Ok _, w'') => (r, w'')
      | (Raise e, w'') => (Raise e, w'')
      end
    end.

(** [for x in xs: f(x)] *)
Fixpoint for_each {W A} (xs : list A) (f : A -> M W unit) : M W unit :=
  match xs with
  | [] => ret tt
  | x :: rest => bind (f x) (fun _ => for_each rest f)
  end.

Declare Scope py_scope.
Delimit Scope py_scope with py.
Notation "x <- c ;; k" := (bind c (fun x => k))
  (at level 61, c at next level, right associativity) : py_scope.
Notation "c ;; k" := (bind c (fun _ => k))
  (at level 61, right associativity) : py_scope.
Local Open Scope py_scope.

(** The module's path constants. *)
Record Constants : Type := mkConstants {
  ROOT_DIR : Path;
  DATA_DIR : Path;
  SQL_DIR : Path;
  ARTIFACTS_DIR : Path;
  DB_PATH : Path;
  CREATE_TABLES_SQL : Path;
  LOAD_DATA_SQL : Path;
  COUNTS_SQL : Path;
  KPI_SQL : Path
}.

Definition delimiter : string := "====================================".

Section Script.

Variable env : Env.

Local Abbreviation W := (World (St env)).

(* --------------------------------------------------------------------- *)
(** ** Calls to the collaborators *)
(* --------------------------------------------------------------------- *)

Definition emit (e : Event) : M W unit :=
  fun w => (Ok tt, mkWorld (ext w) (trace w ++ [e])).

(** [LOG.info(msg)] *)
Definition info (msg : string) : M W unit := emit (EvInfo msg).

(** [log_header(LOG, title)] *)
Definition log_header (title : string) : M W unit := emit (EvLogHeader title).

(** [p.resolve()] *)
Definition resolve (p : Path) : M W Path :=
  fun w => (fs_resolve env (ext w) p, w).

(** [p.exists()] *)
Definition path_exists (p : Path) : M W bool :=
  fun w =>
    let r := fs_exists env (ext w) p in
    (r, mkWorld (ext w) (trace w ++ [EvExists p r])).

(** [p.mkdir(parents=True, exist_ok=True)] *)
Definition mkdir (p : Path) : M W unit :=
  fun w =>
    let (r, s) := fs_mkdir env (ext w) p in
    (r, mkWorld s (trace w ++ [EvMkdir p r])).

(** [p.read_text(encoding="utf-8")]: open, read the bytes, decode them
    strictly, translate the newlines. *)
Definition read_text (p : Path) : M W string :=
  fun w =>
    let r := fs_read_bytes env (ext w) p in
    (decoded r, mkWorld (ext w) (trace w ++ [EvRead p r])).

(** [duckdb.connect(database)] *)
Definition connect (database : string) : M W Conn :=
  fun w =>
    let (r, s) := db_connect env (ext w) database in
    (r, mkWorld s (trace w ++ [EvConnect database r])).

(** [con.execute(sql)] *)
Definition execute (con : Conn) (sql : string) : M W Cursor :=
  fun w =>
    let (r, s) := db_execute env (ext w) con sql in
    (r, mkWorld s (trace w ++ [EvExecute con sql r])).

(** [result.fetchall()] *)
Definition fetchall (result : Cursor) : M W (list Row) :=
  fun w => (cur_fetch result, mkWorld (ext w) (trace w ++ [EvFetchall (cur_fetch result)])).

(** [con.close()] *)
Definition close (con : Conn) : M W unit :=
  fun w =>
    let (r, s) := db_close env (ext w) con in
    (r, mkWorld s (trace w ++ [EvClose con r])).

(* --------------------------------------------------------------------- *)
(** ** The script *)
(* --------------------------------------------------------------------- *)

(** The loop of [find_repo_root]: [for _ in range(n)], leaving early with
    the directory that holds the marker. *)
Fixpoint walk_up (n : nat) (cur : Path) : M W (option Path) :=
  match n with
  | O => ret None
  | S n' =>
    found <- path_exists (cur // "pyproject.toml") ;;
    if found then ret (Some cur) else walk_up n' (parent cur)
  end.

Definition find_repo_root (start : Path) : M W Path :=
  cur <- resolve start ;;
  hit <- walk_up 10 cur ;;
  match hit with
  | Some root => ret root
  | None => resolve start   (* fallback *)
  end.

(** The module's top level, [file] being [__file__]. *)
Definition module_body (file : Path) : M W Constants :=
  here <- resolve file ;;
  root <- find_repo_root (parent here) ;;
  let data := root // "data" // "library" in
  let sql := root // "sql" // "duckdb" in
  let artifacts := root // "artifacts" // "duckdb" in
  ret (mkConstants root data sql artifacts
         (artifacts // "library.duckdb")
         (sql // "create_library_tables.sql")
         (sql // "load_library_data.sql")
         (sql // "query_library_counts.sql")
         (sql // "query_library_kpi.sql")).

Definition read_sql (sql_path : Path) : M W string :=
  read_text sql_path.

Definition run_sql_script (con : Conn) (sql_path : Path) : M W unit :=
  info ("RUN SQL script: " ++ path_str sql_path) ;;
  sql <- read_sql sql_path ;;
  _ <- execute con sql ;;
  ret tt.

Definition run_sql_query (con : Conn) (sql_path : Path) : M W unit :=
  info "" ;;
  info ("RUN SQL query: " ++ path_str sql_path) ;;
  sql <- read_sql sql_path ;;
  result <- execute con sql ;;
  rows <- fetchall result ;;
  let cols := map col_name (cur_description result) in
  info delimiter ;;
  info (name sql_path) ;;
  info delimiter ;;
  info (join ", " cols) ;;
  for_each rows (fun row => info (join ", " (map str row))).

Definition main (g : Constants) : M W unit :=
  log_header "P05 DuckDB Pipeline — Library Domain" ;;
  mkdir (ARTIFACTS_DIR g) ;;
  con <- connect (path_str (DB_PATH g)) ;;
  try_finally
    (run_sql_script con (CREATE_TABLES_SQL g) ;;
     run_sql_script con (LOAD_DATA_SQL g) ;;
     run_sql_query con (COUNTS_SQL g) ;;
     run_sql_query con (KPI_SQL g))
    (close con).

(** Running the file as a script: the module's top level, then [main()]. *)
Definition script (file : Path) : M W unit :=
  g <- module_body file ;;
  main g.

End Script.

Arguments main env g w : rename.
Arguments script env file w : rename.
Arguments find_repo_root env start w : rename.

(* ===================================================================== *)
(** * Reading traces *)
(* ===================================================================== *)

(** The exception a call raised, if it did.  Reading a file raises when
    the bytes cannot be had or cannot be decoded. *)
Definition exn_of (ev : Event) : option Exn :=
  match ev with
  | EvExists _ (Raise e) => Some e
  | EvMkdir _ (Raise e) => Some e
  | EvConnect _ (Raise e) => Some e
  | EvRead _ r => match decoded r with Raise e => Some e | Ok _ => None end
  | EvExecute _ _ (Raise e) => Some e
  | EvFetchall (Raise e) => Some e
  | EvClose _ (Raise e) => Some e
  | _ => None
  end.

Definition quiet (ev : Event) : Prop := exn_of ev = None.

Definition is_close (ev : Event) : bool :=
  match ev with EvClose _ _ => true | _ => false end.

Definition is_read (ev : Event) : bool :=
  match ev with EvRead _ _ => true | _ => false end.

Definition is_execute (ev : Event) : bool :=
  match ev with EvExecute _ _ _ => true | _ => false end.

Definition is_fetchall (ev : Event) : bool :=
  match ev with EvFetchall _ => true | _ => false end.

Definition is_exists (ev : Event) : bool :=
  match ev with EvExists _ _ => true | _ => false end.

(** A call of the [try] body: reading, executing or fetching. *)
Definition is_body_call (ev : Event) : bool :=
  is_read ev || is_execute ev || is_fetchall ev.

Definition count (f : Event -> bool) (d : list Event) : nat :=
  List.length (filter f d).

(** The calls the body of [main]'s [try] makes on connection [con]:
    logging, reading a SQL file, executing on [con], fetching. *)
Definition body_event (con : Conn) (ev : Event) : Prop :=
  match ev with
  | EvInfo _ | EvRead _ _ | EvFetchall _ => True
  | EvExecute c _ _ => c = con
  | _ => False
  end.

(** Every text that is executed is the strict decoding of a SQL file read
    just before. *)
Definition executes_decoded (d : list Event) : Prop :=
  forall con sql rx, In (EvExecute con sql rx) d ->
    exists p bs s, In (EvRead p (Ok bs)) d
      /\ utf8_decode bs = Some s /\ sql = universal_newlines s.

(** The messages given to [LOG.info], in order. *)
Definition log_lines (d : list Event) : list string :=
  flat_map (fun ev => match ev with EvInfo m => [m] | _ => [] end) d.

(** The stages of the pipeline a trace went through, each with what it
    was about. *)
Inductive Stage : Type :=
| Resolve                              (* a probe of the path resolver *)
| Open (database : string)             (* duckdb.connect(database) *)
| Load (p : Path)                      (* the text of the SQL file p is read *)
| Submit (con : Conn) (sql : string)   (* con.execute(sql) *)
| Close (con : Conn).                  (* con.close() *)

Definition stage_of (ev : Event) : list Stage :=
  match ev with
  | EvExists _ _ => [Resolve]
  | EvConnect database _ => [Open database]
  | EvRead p _ => [Load p]
  | EvExecute con sql _ => [Submit con sql]
  | EvClose con _ => [Close con]
  | _ => []
  end.

Definition stages (d : list Event) : list Stage := flat_map stage_of d.

(** The order [main] is written in, on the connection [con] and with the
    texts [t1] ... [t4] of the four files. *)
Definition plan (g : Constants) (con : Conn) (t1 t2 t3 t4 : string) : list Stage :=
  [ Open (path_str (DB_PATH g));
    Load (CREATE_TABLES_SQL g); Submit con t1;
    Load (LOAD_DATA_SQL g); Submit con t2;
    Load (COUNTS_SQL g); Submit con t3;
    Load (KPI_SQL g); Submit con t4 ].

(** Every execution in [d] comes right after the read of a file and is
    given the text decoded from it; [prev] is the call made just before
    [d]. *)
Fixpoint fed (prev : option Event) (d : list Event) : Prop :=
  match d with
  | [] => True
  | ev :: d' =>
    match ev with
    | EvExecute _ sql _ =>
      exists p rr, prev = Some (EvRead p rr) /\ decoded rr = Ok sql
    | _ => True
    end
    /\ fed (Some ev) d'
  end.

(** The stages of [d] are an initial stretch of [l], all of [l] when the
    run returned. *)
Definition on_plan (l : list Stage) (d : list Event) (r : Outcome unit) : Prop :=
  (exists rest, l = stages d ++ rest) /\ (r = Ok tt -> stages d = l).

(** [c], started in [w], makes the calls [d], ends with [r] and leaves
    [w']. *)
Definition runs {S A : Type} (c : M (World S) A) (w : World S)
    (d : list Event) (r : Outcome A) (w' : World S) : Prop :=
  c w = (r, w') /\ trace w' = trace w ++ d.

(** The outcome of [try: ... finally: ...] from the outcomes of its two
    blocks. *)
Definition finally {A : Type} (body : Outcome A) (fin : Outcome unit) : Outcome A :=
  match fin with
  | Ok _ => body
  | Raise e => Raise e
  end.

(** Whether the marker file is in the [i]-th directory above [cur], in the
    outside state [s]. *)
Definition marked (env : Env) (s : St env) (cur : Path) (i : nat) : Outcome bool :=
  fs_exists env s (ancestor i cur // "pyproject.toml").

(** The probe of the [i]-th directory of the walk upward from [cur], and
    its answer. *)
Definition probe (cur : Path) (r : Outcome bool) (i : nat) : Event :=
  EvExists (ancestor i cur // "pyproject.toml") r.

(* ===================================================================== *)
(** * The runs of each function, as traces *)
(* ===================================================================== *)

(** The calls one run of a function makes and the outcome it ends with,
    case by case along the function's text.  The lemmas [*_sound] below
    show that every run of the embedded function is one of these. *)

Inductive script_trace (con : Conn) (p : Path) : list Event -> Outcome unit -> Prop :=
| script_unread rr e :
    decoded rr = Raise e ->
    script_trace con p
      [EvInfo ("RUN SQL script: " ++ path_str p); EvRead p rr]
      (Raise e)
| script_rejected rr sql e :
    decoded rr = Ok sql ->
    script_trace con p
      [EvInfo ("RUN SQL script: " ++ path_str p); EvRead p rr;
       EvExecute con sql (Raise e)]
      (Raise e)
| script_done rr sql cur :
    decoded rr = Ok sql ->
    script_trace con p
      [EvInfo ("RUN SQL script: " ++ path_str p); EvRead p rr;
       EvExecute con sql (Ok cur)]
      (Ok tt).

Inductive query_trace (con : Conn) (p : Path) : list Event -> Outcome unit -> Prop :=
| query_unread rr e :
    decoded rr = Raise e ->
    query_trace con p
      [EvInfo ""; EvInfo ("RUN SQL query: " ++ path_str p); EvRead p rr]
      (Raise e)
| query_rejected rr sql e :
    decoded rr = Ok sql ->
    query_trace con p
      [EvInfo ""; EvInfo ("RUN SQL query: " ++ path_str p); EvRead p rr;
       EvExecute con sql (Raise e)]
      (Raise e)
| query_unfetched rr sql cur e :
    decoded rr = Ok sql ->
    cur_fetch cur = Raise e ->
    query_trace con p
      [EvInfo ""; EvInfo ("RUN SQL query: " ++ path_str p); EvRead p rr;
       EvExecute con sql (Ok cur); EvFetchall (Raise e)]
      (Raise e)
| query_done rr sql cur rows :
    decoded rr = Ok sql ->
    cur_fetch cur = Ok rows ->
    query_trace con p
      ([EvInfo ""; EvInfo ("RUN SQL query: " ++ path_str p); EvRead p rr;
        EvExecute con sql (Ok cur); EvFetchall (Ok rows);
        EvInfo delimiter; EvInfo (name p); EvInfo delimiter;
        EvInfo (join ", " (map col_name (cur_description cur)))]
       ++ map (fun row => EvInfo (join ", " (map str row))) rows)
      (Ok tt).

(** One statement after another: the second runs only if the first
    returned. *)
Inductive and_then (S1 S2 : list Event -> Outcome unit -> Prop)
  : list Event -> Outcome unit -> Prop :=
| first_raises d e :
    S1 d (Raise e) -> and_then S1 S2 d (Raise e)
| first_returns d1 d2 r :
    S1 d1 (Ok tt) -> S2 d2 r -> and_then S1 S2 (d1 ++ d2) r.

(** The body of the [try] block. *)
Definition body_trace (con : Conn) (g : Constants) : list Event -> Outcome unit -> Prop :=
  and_then (script_trace con (CREATE_TABLES_SQL g))
    (and_then (script_trace con (LOAD_DATA_SQL g))
       (and_then (query_trace con (COUNTS_SQL g))
          (query_trace con (KPI_SQL g)))).

Inductive main_trace (g : Constants) : list Event -> Outcome unit -> Prop :=
| main_no_directory e :
    main_trace g
      [EvLogHeader "P05 DuckDB Pipeline — Library Domain";
       EvMkdir (ARTIFACTS_DIR g) (Raise e)]
      (Raise e)
| main_no_connection e :
    main_trace g
      [EvLogHeader "P05 DuckDB Pipeline — Library Domain";
       EvMkdir (ARTIFACTS_DIR g) (Ok tt);
       EvConnect (path_str (DB_PATH g)) (Raise e)]
      (Raise e)
| main_connected con body rb rc :
    body_trace con g body rb ->
    main_trace g
      ([EvLogHeader "P05 DuckDB Pipeline — Library Domain";
        EvMkdir (ARTIFACTS_DIR g) (Ok tt);
        EvConnect (path_str (DB_PATH g)) (Ok con)]
       ++ body ++ [EvClose con rc])
      (finally rb rc).

(** [c] always returns, and what it does is described by [T]. *)
Definition sound {S A : Type} (c : M (World S) A)
    (T : list Event -> Outcome A -> Prop) : Prop :=
  forall w, exists d, T d (fst (c w)) /\ trace (snd (c w)) = trace w ++ d.

(** A list of calls with its outcome is [halted] when a call that raised
    is the last one, and the outcome is its exception. *)
Definition halted (d : list Event) (r : Outcome unit) : Prop :=
  match r with
  | Ok _ => Forall quiet d
  | Raise x =>
    exists pre ev, d = pre ++ [ev] /\ Forall quiet pre /\ exn_of ev = Some x
  end.

(* ===================================================================== *)
(** * A small file system with an engine, to run the script on *)
(* ===================================================================== *)

(** An environment that computes: directories and files by absolute path,
    no symbolic links, and an engine that answers a SQL text from a
    table.  A database file is recognised by its first four bytes. *)
Module Disk.

Record State : Type := mkState {
  cwd : list string;
  dirs : list (list string);                 (* besides the root *)
  files : list (list string * list byte);
  replies : list (string * Outcome Cursor)   (* an absent text is answered
                                                by an empty result *)
}.

Fixpoint parts_eqb (a b : list string) : bool :=
  match a, b with
  | [], [] => true
  | x :: a', y :: b' => String.eqb x y && parts_eqb a' b'
  | _, _ => false
  end.

Definition below_root (d : State) (p : Path) : list string :=
  if absolute p then parts p else cwd d ++ parts p.

Definition resolve (d : State) (p : Path) : Path :=
  mkPath true (below_root d p).

Definition is_dir (d : State) (ps : list string) : bool :=
  match ps with
  | [] => true
  | _ => existsb (parts_eqb ps) (dirs d)
  end.

Fixpoint lookup (ps : list string) (fs : list (list string * list byte))
  : option (list byte) :=
  match fs with
  | [] => None
  | (qs, bs) :: fs' => if parts_eqb ps qs then Some bs else lookup ps fs'
  end.

Definition is_file (d : State) (ps : list string) : bool :=
  match lookup ps (files d) with Some _ => true | None => false end.

Definition exists_ (d : State) (p : Path) : bool :=
  is_dir d (below_root d p) || is_file d (below_root d p).

(** The non-empty prefixes of [ps], shortest first. *)
Fixpoint prefixes (ps : list string) : list (list string) :=
  match ps with
  | [] => []
  | x :: ps' => [x] :: map (cons x) (prefixes ps')
  end.

(** [mkdir(parents=True, exist_ok=True)]: fails when the path or one of
    its ancestors is a file, else makes every missing directory. *)
Definition mkdir (d : State) (p : Path) : Outcome unit * State :=
  let ps := below_root d p in
  if existsb (is_file d) (prefixes ps)
  then (Raise (OSError "FileExistsError"), d)
  else
    (Ok tt,
     mkState (cwd d)
       (dirs d ++ filter (fun q => negb (is_dir d q)) (prefixes ps))
       (files d) (replies d)).

Definition read_bytes (d : State) (p : Path) : Outcome (list byte) :=
  match lookup (below_root d p) (files d) with
  | Some bs => Ok bs
  | None => Raise (FileNotFoundError (path_str p))
  end.

(** Splitting a path string at the slashes. *)
Fixpoint split_slash (s : string) (cur : string) : list string :=
  match s with
  | EmptyString => [cur]
  | String c r =>
    if Ascii.eqb c "/"%char then cur :: split_slash r ""
    else split_slash r (cur ++ String c "")
  end.

Definition path_of_string (s : string) : Path :=
  mkPath (match s with String c _ => Ascii.eqb c "/"%char | _ => false end)
    (filter (fun x => negb (String.eqb x "")) (split_slash s "")).

Fixpoint bytes_eqb (a b : list byte) : bool :=
  match a, b with
  | [], [] => true
  | x :: a', y :: b' => Byte.eqb x y && bytes_eqb a' b'
  | _, _ => false
  end.

Definition magic : list byte := [x44; x55; x43; x4b].   (* "DUCK" *)

(** Opening a database: an existing file must be a database file; a
    missing one is created when its directory exists. *)
Definition connect (d : State) (database : string) : Outcome Conn * State :=
  let ps := below_root d (path_of_string database) in
  match lookup ps (files d) with
  | Some bs =>
    if bytes_eqb (firstn 4 bs) magic
    then (Ok 1%N, d)
    else (Raise (DuckDBError "IO Error: not a valid DuckDB database file"), d)
  | None =>
    if is_dir d (removelast ps) && negb (is_dir d ps)
    then (Ok 1%N, mkState (cwd d) (dirs d) (files d ++ [(ps, magic)]) (replies d))
    else (Raise (DuckDBError "IO Error: cannot open file"), d)
  end.

Fixpoint answer (sql : string) (t : list (string * Outcome Cursor)) : Outcome Cursor :=
  match t with
  | [] => Ok (mkCursor (Ok []) [])
  | (q, r) :: t' => if String.eqb sql q then r else answer sql t'
  end.

Definition execute (d : State) (con : Conn) (sql : string) : Outcome Cursor * State :=
  (answer sql (replies d), d).

Definition close (d : State) (con : Conn) : Outcome unit * State :=
  (Ok tt, d).

(** On a disk resolving and probing always answer. *)
Definition env : Env :=
  mkEnv State
    (fun d p => Ok (resolve d p))
    (fun d p => Ok (exists_ d p))
    mkdir read_bytes connect execute close.

(** Running a computation from a state, with an empty trace. *)
Definition start (d : State) : World (St env) := mkWorld (d : St env) [].

End Disk.


(* ===================================================================== *)
(** * Disks to run on *)
(* ===================================================================== *)

Module Scenario.

Definition proj : list string := ["home"; "user"; "proj"].

(** [__file__] *)
Definition file : Path :=
  mkPath true (proj ++ ["src"; "datafun_05_sql"; "case_duckdb_library.py"]).

Definition root : Path := mkPath true proj.

(** The constants the module computes in the project below. *)
Definition g : Constants :=
  mkConstants root
    (root // "data" // "library")
    (root // "sql" // "duckdb")
    (root // "artifacts" // "duckdb")
    (root // "artifacts" // "duckdb" // "library.duckdb")
    (root // "sql" // "duckdb" // "create_library_tables.sql")
    (root // "sql" // "duckdb" // "load_library_data.sql")
    (root // "sql" // "duckdb" // "query_library_counts.sql")
    (root // "sql" // "duckdb" // "query_library_kpi.sql").

Definition project_dirs : list (list string) :=
  [ ["home"]; ["home"; "user"]; proj;
    proj ++ ["sql"]; proj ++ ["sql"; "duckdb"];
    proj ++ ["src"]; proj ++ ["src"; "datafun_05_sql"] ].

Definition sql_file (name text : string) : list string * list byte :=
  (proj ++ ["sql"; "duckdb"; name], list_byte_of_string text).

Definition counts_cursor : Cursor :=
  mkCursor
    (Ok [ [VStr "branch"; VInt 5; VNone]; [VStr "checkout"; VInt 120; VBool true] ])
    [ mkColumn "table_name" "VARCHAR"; mkColumn "n" "BIGINT";
      mkColumn "flag" "BOOLEAN" ].

(** A project with its marker and its four SQL files; the counts query
    returns two rows of three columns. *)
Definition healthy : Disk.State :=
  Disk.mkState ["home"; "user"] project_dirs
    [ (proj ++ ["pyproject.toml"], []);
      sql_file "create_library_tables.sql" "CREATE TABLE branch (id INTEGER PRIMARY KEY)";
      sql_file "load_library_data.sql" "COPY branch FROM 'data/library/branch.csv'";
      sql_file "query_library_counts.sql" "SELECT 'branch', COUNT(*) FROM branch";
      sql_file "query_library_kpi.sql" "SELECT AVG(n) FROM checkout" ]
    [ ("SELECT 'branch', COUNT(*) FROM branch", Ok counts_cursor) ].

(** The same, the engine rejecting the load script. *)
Definition malformed_load : Disk.State :=
  Disk.mkState (Disk.cwd healthy) (Disk.dirs healthy) (Disk.files healthy)
    (("COPY branch FROM 'data/library/branch.csv'",
      Raise (DuckDBError "Parser Error: syntax error")) :: Disk.replies healthy).

(** The same, the counts query file holding the single byte 0xFF. *)
Definition undecodable_counts : Disk.State :=
  Disk.mkState (Disk.cwd healthy) (Disk.dirs healthy)
    ((proj ++ ["sql"; "duckdb"; "query_library_counts.sql"], [xff])
       :: Disk.files healthy)
    (Disk.replies healthy).

(** The same, with a file that is no database where the database goes. *)
Definition corrupt_database : Disk.State :=
  Disk.mkState (Disk.cwd healthy)
    (Disk.dirs healthy ++ [proj ++ ["artifacts"]; proj ++ ["artifacts"; "duckdb"]])
    ((proj ++ ["artifacts"; "duckdb"; "library.duckdb"], list_byte_of_string "junk")
       :: Disk.files healthy)
    (Disk.replies healthy).

(** A disk without any marker file. *)
Definition bare : Disk.State :=
  Disk.mkState ["home"; "user"] [ ["home"]; ["home"; "user"]; ["home"; "user"; "work"] ] [] [].

(** A directory eleven levels deep, the marker ten levels above it. *)
Definition deep_dir : list string :=
  ["top"; "l1"; "l2"; "l3"; "l4"; "l5"; "l6"; "l7"; "l8"; "l9"; "l10"].

Definition deep : Disk.State :=
  Disk.mkState [] [] [ (["top"; "pyproject.toml"], []) ] [].

End Scenario.

(* ===================================================================== *)
(** * More ways to read a trace *)
(* ===================================================================== *)

Definition is_mkdir (ev : Event) : bool :=
  match ev with EvMkdir _ _ => true | _ => false end.

Definition is_connect (ev : Event) : bool :=
  match ev with EvConnect _ _ => true | _ => false end.

(** [duckdb.connect] returned a connection. *)
Definition is_connected (ev : Event) : bool :=
  match ev with EvConnect _ (Ok _) => true | _ => false end.

(** The line that announces the file [p], as a script or as a query. *)
Definition announces (p : Path) (ev : Event) : Prop :=
  ev = EvInfo ("RUN SQL script: " ++ path_str p)
  \/ ev = EvInfo ("RUN SQL query: " ++ path_str p).

(** Every read in [d] comes right after the line that announces its file;
    [prev] is the call made just before [d]. *)
Fixpoint announced (prev : option Event) (d : list Event) : Prop :=
  match d with
  | [] => True
  | ev :: d' =>
    match ev with
    | EvRead p _ => exists a, prev = Some a /\ announces p a
    | _ => True
    end
    /\ announced (Some ev) d'
  end.

(** The last call of [d], or [prev] when [d] is empty. *)
Definition last_call (prev : option Event) (d : list Event) : option Event :=
  last (map Some d) prev.

(** Whether the text holds a carriage return. *)
Fixpoint has_cr (s : string) : bool :=
  match s with
  | EmptyString => false
  | String c r => Ascii.eqb c CR || has_cr r
  end.

Module MoreScenarios.

(** The healthy project, the engine answering the load script with a
    result that cannot be fetched. *)
Definition unfetchable_load : Disk.State :=
  Disk.mkState (Disk.cwd Scenario.healthy) (Disk.dirs Scenario.healthy)
    (Disk.files Scenario.healthy)
    (("COPY branch FROM 'data/library/branch.csv'",
      Ok (mkCursor (Raise (DuckDBError "Conversion Error")) []))
       :: Disk.replies Scenario.healthy).

(** The healthy project with a file named [artifacts] in the way of the
    artifacts directory. *)
Definition blocked : Disk.State :=
  Disk.mkState (Disk.cwd Scenario.healthy) (Disk.dirs Scenario.healthy)
    ((Scenario.proj ++ ["artifacts"], []) :: Disk.files Scenario.healthy)
    (Disk.replies Scenario.healthy).

(** The healthy project, the KPI query file ending its two lines with
    carriage return and line feed. *)
Definition crlf_kpi : Disk.State :=
  Disk.mkState (Disk.cwd Scenario.healthy) (Disk.dirs Scenario.healthy)
    ((Scenario.proj ++ ["sql"; "duckdb"; "query_library_kpi.sql"],
      list_byte_of_string "SELECT" ++ [x0d; x0a]
      ++ list_byte_of_string "1" ++ [x0d; x0a])
       :: Disk.files Scenario.healthy)
    (Disk.replies Scenario.healthy).

(** The disk environment with an engine whose [close] raises. *)
Definition env_close_raises : Env :=
  mkEnv Disk.State
    (fun d p => Ok (Disk.resolve d p))
    (fun d p => Ok (Disk.exists_ d p))
    Disk.mkdir Disk.read_bytes
    Disk.connect Disk.execute
    (fun d _ => (Raise (DuckDBError "IO Error: checkpoint failed"), d)).

Definition start_close_raises (d : Disk.State) : World (St env_close_raises) :=
  mkWorld (d : St env_close_raises) [].

(** The healthy project with the directory [artifacts] in place and a
    file named [duckdb] where the artifacts directory goes. *)
Definition duckdb_is_file : Disk.State :=
  Disk.mkState (Disk.cwd Scenario.healthy)
    (Disk.dirs Scenario.healthy ++ [Scenario.proj ++ ["artifacts"]])
    ((Scenario.proj ++ ["artifacts"; "duckdb"], []) :: Disk.files Scenario.healthy)
    (Disk.replies Scenario.healthy).

Fixpoint mentions (x : string) (ps : list string) : bool :=
  match ps with
  | [] => false
  | y :: ps' => String.eqb x y || mentions x ps'
  end.

(** The disk environment with a directory [locked] that may not be
    searched: asking whether something below it exists raises. *)
Definition env_locked : Env :=
  mkEnv Disk.State
    (fun d p => Ok (Disk.resolve d p))
    (fun d p =>
       if mentions "locked" (removelast (Disk.below_root d p))
       then Raise (OSError "PermissionError")
       else Ok (Disk.exists_ d p))
    Disk.mkdir Disk.read_bytes Disk.connect Disk.execute Disk.close.

(** The disk environment with a symbolic link [loop] that points to
    itself: resolving a path through it raises. *)
Definition env_loop : Env :=
  mkEnv Disk.State
    (fun d p =>
       if mentions "loop" (Disk.below_root d p)
       then Raise (RuntimeError "Symlink loop")
       else Ok (Disk.resolve d p))
    (fun d p => Ok (Disk.exists_ d p))
    Disk.mkdir Disk.read_bytes Disk.connect Disk.execute Disk.close.

Definition start_in (env : Env) (s : St env) : World (St env) := mkWorld s [].

End MoreScenarios.
(* ===================================================================== *)
(** * The codec *)
(* ===================================================================== *)

(** "e" acute, an em dash and an emoji are accepted. *)
Example utf8_accepts :
  utf8_valid [xc3; xa9] = true
  /\ utf8_valid [xe2; x80; x94] = true
  /\ utf8_valid [xf0; x9f; x98; x80] = true.
Proof. repeat split. Qed.

(** A stray byte, an overlong form, a surrogate, a code point above
    U+10FFFF and a truncated sequence are refused. *)
Example utf8_refuses :
  utf8_valid [xff] = false
  /\ utf8_valid [x80] = false
  /\ utf8_valid [xc0; x80] = false
  /\ utf8_valid [xed; xa0; x80] = false
  /\ utf8_valid [xf4; x90; x80; x80] = false
  /\ utf8_valid [xe2; x80] = false.
Proof. repeat split. Qed.

(** ASCII text is well-formed. *)
Lemma utf8_valid_ascii bs :
  Forall (fun b => byte_in 0 127 b = true) bs -> utf8_valid bs = true.
Proof.
  induction 1 as [|b bs Hb _ IH]; simpl; trivial.
  now rewrite Hb.
Qed.

Example newlines_translated :
  universal_newlines (String "a" (String CR (String LF (String "b" (String CR "c")))))
  = String "a" (String LF (String "b" (String LF "c"))).
Proof. reflexivity. Qed.

(* ===================================================================== *)
(** * Every run is one of the traces *)
(* ===================================================================== *)

Lemma runs_sound {S A} (c : M (World S) A) T w d r w' :
  sound c T -> runs c w d r w' -> T d r.
Proof.
  intros Hs [Hc Ht]. destruct (Hs w) as (d' & HT & Ht').
  rewrite Hc in HT, Ht'. simpl in HT, Ht'.
  rewrite Ht in Ht'. apply app_inv_head in Ht'. now subst.
Qed.

Lemma runs_exists {S A} (c : M (World S) A) T w :
  sound c T -> exists d, runs c w d (fst (c w)) (snd (c w)).
Proof.
  intros Hs. destruct (Hs w) as (d & _ & Ht).
  exists d. split; [now destruct (c w) | exact Ht].
Qed.

Lemma sound_seq {S} (c1 c2 : M (World S) unit) T1 T2 :
  sound c1 T1 -> sound c2 T2 -> sound (c1 ;; c2) (and_then T1 T2).
Proof.
  intros H1 H2 w. unfold bind.
  destruct (H1 w) as (d1 & HT1 & Ht1).
  destruct (c1 w) as [[[]|e] w1]; simpl in *.
  - destruct (H2 w1) as (d2 & HT2 & Ht2).
    exists (d1 ++ d2). split.
    + now apply first_returns.
    + now rewrite Ht2, Ht1, app_assoc.
  - exists d1. split; [now apply first_raises | exact Ht1].
Qed.

Section Soundness.

Variable env : Env.

Lemma for_each_emits {A} (f : A -> M (World (St env)) unit) (ev : A -> Event)
    (xs : list A) (w : World (St env)) :
  (forall x w0, f x w0 = (Ok tt, mkWorld (ext w0) (trace w0 ++ [ev x]))) ->
  for_each xs f w = (Ok tt, mkWorld (ext w) (trace w ++ map ev xs)).
Proof.
  intros Hf. revert w. induction xs as [|x xs IH]; intros w; simpl.
  - unfold ret. rewrite app_nil_r. now destruct w.
  - unfold bind. rewrite Hf, IH. simpl. now rewrite <- app_assoc.
Qed.

Lemma run_sql_script_sound con p :
  sound (run_sql_script env con p) (script_trace con p).
Proof.
  intros w.
  unfold run_sql_script, read_sql, read_text, execute, info, emit, bind, ret.
  simpl.
  destruct (decoded (fs_read_bytes env (ext w) p)) as [sql|e] eqn:Hd.
  - destruct (db_execute env (ext w) con sql) as [[cur|e] s]; simpl;
      eexists; (split; [econstructor; eassumption|]);
      now rewrite <- !app_assoc.
  - simpl. eexists. split; [econstructor; eassumption|].
    now rewrite <- !app_assoc.
Qed.

Lemma run_sql_query_sound con p :
  sound (run_sql_query env con p) (query_trace con p).
Proof.
  intros w.
  unfold run_sql_query, read_sql, read_text, execute, fetchall, bind.
  simpl.
  destruct (decoded (fs_read_bytes env (ext w) p)) as [sql|e] eqn:Hd.
  - destruct (db_execute env (ext w) con sql) as [[cur|e] s]; simpl.
    + destruct (cur_fetch cur) as [rows|e] eqn:Hf; simpl.
      * rewrite (for_each_emits _ (fun row => EvInfo (join ", " (map str row))))
          by reflexivity.
        simpl.
        eexists. split; [eapply query_done; eassumption|].
        now rewrite <- !app_assoc.
      * eexists. split; [eapply query_unfetched; eassumption|].
        now rewrite <- !app_assoc.
    + eexists. split; [eapply query_rejected; eassumption|].
      now rewrite <- !app_assoc.
  - simpl. eexists. split; [econstructor; eassumption|].
    now rewrite <- !app_assoc.
Qed.

Lemma body_sound con g :
  sound (run_sql_script env con (CREATE_TABLES_SQL g) ;;
         run_sql_script env con (LOAD_DATA_SQL g) ;;
         run_sql_query env con (COUNTS_SQL g) ;;
         run_sql_query env con (KPI_SQL g))
        (body_trace con g).
Proof.
  unfold body_trace.
  repeat apply sound_seq;
    auto using run_sql_script_sound, run_sql_query_sound.
Qed.

Lemma try_finally_close_sound (body : M (World (St env)) unit) T con :
  sound body T ->
  sound (try_finally body (close env con))
        (fun d r => exists db rb rc,
             T db rb /\ d = db ++ [EvClose con rc] /\ r = finally rb rc).
Proof.
  intros Hb w. unfold try_finally, close.
  destruct (Hb w) as (db & HT & Ht).
  destruct (body w) as [rb w1]. simpl in HT, Ht.
  destruct (db_close env (ext w1) con) as [rc s2].
  exists (db ++ [EvClose con rc]). split.
  - exists db, rb, rc. repeat split; trivial. now destruct rc.
  - destruct rc; simpl; now rewrite Ht, app_assoc.
Qed.

Lemma main_sound g : sound (main env g) (main_trace g).
Proof.
  intros w.
  unfold main, bind, log_header, emit, mkdir, connect. simpl.
  destruct (fs_mkdir env (ext w) (ARTIFACTS_DIR g)) as [[[]|e] s1]; simpl.
  - destruct (db_connect env s1 (path_str (DB_PATH g))) as [[con|e] s2]; simpl.
    + match goal with |- context [try_finally ?b ?f ?w0] =>
        destruct (try_finally_close_sound b _ con (body_sound con g) w0)
          as (d & (db & rb & rc & HT & -> & Hr) & Ht)
      end.
      simpl in Ht.
      exists ([EvLogHeader "P05 DuckDB Pipeline — Library Domain";
               EvMkdir (ARTIFACTS_DIR g) (Ok tt);
               EvConnect (path_str (DB_PATH g)) (Ok con)]
              ++ db ++ [EvClose con rc]).
      split.
      * rewrite Hr. now apply main_connected.
      * rewrite Ht. now rewrite <- !app_assoc.
    + eexists. split; [apply main_no_connection|]. now rewrite <- !app_assoc.
  - eexists. split; [apply main_no_directory|]. now rewrite <- !app_assoc.
Qed.

End Soundness.

(* ===================================================================== *)
(** * Facts about traces *)
(* ===================================================================== *)

Lemma count_app f d1 d2 : count f (d1 ++ d2) = count f d1 + count f d2.
Proof. unfold count. now rewrite filter_app, length_app. Qed.

Lemma count_none f d : Forall (fun ev => f ev = false) d -> count f d = 0.
Proof.
  unfold count. induction 1 as [|ev d Hev _ IH]; simpl; trivial.
  now rewrite Hev.
Qed.

Lemma stages_app d1 d2 : stages (d1 ++ d2) = stages d1 ++ stages d2.
Proof. apply flat_map_app. Qed.

Lemma log_lines_app d1 d2 : log_lines (d1 ++ d2) = log_lines d1 ++ log_lines d2.
Proof. apply flat_map_app. Qed.

Lemma log_lines_info {A} (f : A -> string) xs :
  log_lines (map (fun x => EvInfo (f x)) xs) = map f xs.
Proof. induction xs; simpl; congruence. Qed.

Lemma stages_info {A} (f : A -> string) xs :
  stages (map (fun x => EvInfo (f x)) xs) = [].
Proof. induction xs; simpl; trivial. Qed.

Lemma Forall_info {A} (P : Event -> Prop) (f : A -> string) xs :
  (forall m, P (EvInfo m)) -> Forall P (map (fun x => EvInfo (f x)) xs).
Proof. intros H. induction xs; simpl; constructor; auto. Qed.

Lemma quiet_read p rr sql : decoded rr = Ok sql -> quiet (EvRead p rr).
Proof. unfold quiet. simpl. now intros ->. Qed.

Lemma raised_read p rr e : decoded rr = Raise e -> exn_of (EvRead p rr) = Some e.
Proof. simpl. now intros ->. Qed.

Create HintDb trace.
#[local] Hint Resolve quiet_read raised_read : trace.
#[local] Hint Extern 1 (quiet _) => reflexivity : trace.
#[local] Hint Extern 1 (body_event _ _) => exact I : trace.
#[local] Hint Extern 1 (body_event _ _) => reflexivity : trace.

Lemma script_trace_halted con p d r : script_trace con p d r -> halted d r.
Proof.
  destruct 1; simpl.
  - exists [EvInfo ("RUN SQL script: " ++ path_str p)], (EvRead p rr).
    repeat split; auto with trace.
  - exists [EvInfo ("RUN SQL script: " ++ path_str p); EvRead p rr],
      (EvExecute con sql (Raise e)).
    repeat split; eauto with trace.
  - repeat constructor; eauto with trace.
Qed.

Lemma query_trace_halted con p d r : query_trace con p d r -> halted d r.
Proof.
  destruct 1; simpl.
  - exists [EvInfo ""; EvInfo ("RUN SQL query: " ++ path_str p)], (EvRead p rr).
    repeat split; auto with trace.
  - exists [EvInfo ""; EvInfo ("RUN SQL query: " ++ path_str p); EvRead p rr],
      (EvExecute con sql (Raise e)).
    repeat split; eauto 6 with trace.
  - exists [EvInfo ""; EvInfo ("RUN SQL query: " ++ path_str p); EvRead p rr;
            EvExecute con sql (Ok cur)],
      (EvFetchall (Raise e)).
    repeat split; eauto 7 with trace.
  - repeat (constructor; eauto with trace).
    apply Forall_info. reflexivity.
Qed.

Lemma and_then_halted (T1 T2 : list Event -> Outcome unit -> Prop) :
  (forall d r, T1 d r -> halted d r) ->
  (forall d r, T2 d r -> halted d r) ->
  forall d r, and_then T1 T2 d r -> halted d r.
Proof.
  intros H1 H2 d r [d1 e Hd|d1 d2 r' Hd1 Hd2].
  - now apply H1.
  - apply H1 in Hd1. apply H2 in Hd2. simpl in Hd1.
    destruct r' as [u|x]; simpl in *.
    + now apply Forall_app.
    + destruct Hd2 as (pre & ev & -> & Hq & Hx).
      exists (d1 ++ pre), ev. rewrite app_assoc.
      repeat split; trivial. now apply Forall_app.
Qed.

Lemma body_trace_halted con g : forall d r, body_trace con g d r -> halted d r.
Proof.
  unfold body_trace.
  repeat apply and_then_halted;
    eauto using script_trace_halted, query_trace_halted.
Qed.

Lemma script_trace_events con p d r :
  script_trace con p d r -> Forall (body_event con) d.
Proof. destruct 1; repeat constructor. Qed.

Lemma query_trace_events con p d r :
  query_trace con p d r -> Forall (body_event con) d.
Proof.
  destruct 1; repeat constructor.
  apply Forall_info. intros; exact I.
Qed.

Lemma and_then_events (P : Event -> Prop) (T1 T2 : list Event -> Outcome unit -> Prop) :
  (forall d r, T1 d r -> Forall P d) ->
  (forall d r, T2 d r -> Forall P d) ->
  forall d r, and_then T1 T2 d r -> Forall P d.
Proof.
  intros H1 H2 d r [d1 e Hd|d1 d2 r' Hd1 Hd2]; eauto.
  apply Forall_app. eauto.
Qed.

Lemma body_trace_events con g :
  forall d r, body_trace con g d r -> Forall (body_event con) d.
Proof.
  unfold body_trace.
  repeat apply and_then_events;
    eauto using script_trace_events, query_trace_events.
Qed.

Lemma body_event_not_close con ev : body_event con ev -> is_close ev = false.
Proof. now destruct ev. Qed.

Lemma body_events_no_close con d :
  Forall (body_event con) d -> count is_close d = 0.
Proof.
  intros H. apply count_none.
  eapply Forall_impl; [|exact H]. apply body_event_not_close.
Qed.

(* ===================================================================== *)
(** * The path resolver *)
(* ===================================================================== *)

Section Resolver.

Variable env : Env.

Lemma probes_shift cur r k :
  map (probe (parent cur) r) (seq 0 k) = map (probe cur r) (seq 1 k).
Proof. rewrite <- seq_shift, map_map. reflexivity. Qed.

(** The loop stops at the first directory among the first [n] whose probe
    does not answer "absent": with that directory when the marker is
    there, with the exception when the probe raised; or it probes all
    [n]. *)
Lemma walk_up_cases n : forall cur w,
  (exists k, k < n
     /\ marked env (ext w) cur k = Ok true
     /\ (forall i, i < k -> marked env (ext w) cur i = Ok false)
     /\ walk_up env n cur w
        = (Ok (Some (ancestor k cur)),
           mkWorld (ext w)
             (trace w ++ map (probe cur (Ok false)) (seq 0 k)
                      ++ [probe cur (Ok true) k])))
  \/ (exists k e, k < n
       /\ marked env (ext w) cur k = Raise e
       /\ (forall i, i < k -> marked env (ext w) cur i = Ok false)
       /\ walk_up env n cur w
          = (Raise e,
             mkWorld (ext w)
               (trace w ++ map (probe cur (Ok false)) (seq 0 k)
                        ++ [probe cur (Raise e) k])))
  \/ ((forall i, i < n -> marked env (ext w) cur i = Ok false)
      /\ walk_up env n cur w
         = (Ok None,
            mkWorld (ext w) (trace w ++ map (probe cur (Ok false)) (seq 0 n)))).
Proof.
  induction n as [|n IH]; intros cur w.
  - right. right. split; [intros i Hi; lia|].
    simpl. unfold ret. rewrite app_nil_r. now destruct w.
  - simpl walk_up. unfold bind, path_exists.
    destruct (fs_exists env (ext w) (cur // "pyproject.toml")) as [[|]|e] eqn:Hc.
    + left. exists 0. repeat split; try lia; trivial.
    + set (w1 := mkWorld (ext w)
                   (trace w ++ [EvExists (cur // "pyproject.toml") (Ok false)])).
      destruct (IH (parent cur) w1)
        as [(k & Hk & Hm & Hlt & Hrun)|[(k & e & Hk & Hm & Hlt & Hrun)|(Hall & Hrun)]].
      * left. exists (S k). repeat split; try lia; trivial.
        -- intros [|i] Hi; [exact Hc|]. apply (Hlt i). lia.
        -- rewrite Hrun. unfold w1. simpl ext. simpl trace.
           rewrite probes_shift. simpl seq. simpl map.
           now rewrite <- app_assoc.
      * right. left. exists (S k), e. repeat split; try lia; trivial.
        -- intros [|i] Hi; [exact Hc|]. apply (Hlt i). lia.
        -- rewrite Hrun. unfold w1. simpl ext. simpl trace.
           rewrite probes_shift. simpl seq. simpl map.
           now rewrite <- app_assoc.
      * right. right. split.
        -- intros [|i] Hi; [exact Hc|]. apply (Hall i). lia.
        -- rewrite Hrun. unfold w1. simpl ext. simpl trace.
           rewrite probes_shift. simpl seq. simpl map.
           now rewrite <- app_assoc.
    + right. left. exists 0, e. repeat split; try lia; trivial.
Qed.

(** [find_repo_root] raises what resolving raised; or, the start being
    resolved to [cur], it is ruled by the loop from [cur]. *)
Lemma find_repo_root_cases start w :
  (exists e, fs_resolve env (ext w) start = Raise e
     /\ find_repo_root env start w = (Raise e, w))
  \/ exists cur, fs_resolve env (ext w) start = Ok cur
     /\ ((exists k, k < 10
           /\ marked env (ext w) cur k = Ok true
           /\ (forall i, i < k -> marked env (ext w) cur i = Ok false)
           /\ find_repo_root env start w
              = (Ok (ancestor k cur),
                 mkWorld (ext w)
                   (trace w ++ map (probe cur (Ok false)) (seq 0 k)
                            ++ [probe cur (Ok true) k])))
         \/ (exists k e, k < 10
              /\ marked env (ext w) cur k = Raise e
              /\ (forall i, i < k -> marked env (ext w) cur i = Ok false)
              /\ find_repo_root env start w
                 = (Raise e,
                    mkWorld (ext w)
                      (trace w ++ map (probe cur (Ok false)) (seq 0 k)
                               ++ [probe cur (Raise e) k])))
         \/ ((forall i, i < 10 -> marked env (ext w) cur i = Ok false)
             /\ find_repo_root env start w
                = (Ok cur,
                   mkWorld (ext w)
                     (trace w ++ map (probe cur (Ok false)) (seq 0 10))))).
Proof.
  unfold find_repo_root, bind, resolve.
  destruct (fs_resolve env (ext w) start) as [cur|e] eqn:Hres.
  - right. exists cur. split; trivial.
    destruct (walk_up_cases 10 cur w)
      as [(k & Hk & Hm & Hlt & Hrun)|[(k & e & Hk & Hm & Hlt & Hrun)|(Hall & Hrun)]];
      rewrite Hrun.
    + left. exists k. repeat split; trivial.
    + right. left. exists k, e. repeat split; trivial.
    + right. right. split; trivial. simpl. now rewrite Hres.
  - left. exists e. split; trivial.
Qed.

End Resolver.

(* ===================================================================== *)
(** * The runs of [main] *)
(* ===================================================================== *)

Lemma main_runs env g w d r w' :
  runs (main env g) w d r w' -> main_trace g d r.
Proof. apply runs_sound, main_sound. Qed.

Lemma In_body_event con d ev :
  Forall (body_event con) d -> In ev d -> body_event con ev.
Proof. intros H. now apply Forall_forall. Qed.

(** A run in which [connect] returned is the three opening calls, a run of
    the [try] body, and [close]. *)
Lemma main_trace_connected g d r db con :
  main_trace g d r ->
  In (EvConnect db (Ok con)) d ->
  exists body rb rc,
    body_trace con g body rb
    /\ d = [EvLogHeader "P05 DuckDB Pipeline — Library Domain";
            EvMkdir (ARTIFACTS_DIR g) (Ok tt);
            EvConnect db (Ok con)]
           ++ body ++ [EvClose con rc]
    /\ r = finally rb rc
    /\ db = path_str (DB_PATH g).
Proof.
  intros [e|e|con' body rb rc Hb] Hin.
  - simpl in Hin. destruct Hin as [H|[H|[]]]; discriminate.
  - simpl in Hin. destruct Hin as [H|[H|[H|[]]]]; discriminate.
  - assert (Hc : db = path_str (DB_PATH g) /\ con = con').
    { simpl in Hin. destruct Hin as [H|[H|[H|Hin]]]; try discriminate.
      - now inversion H.
      - apply in_app_or in Hin. destruct Hin as [Hin|[H|[]]]; try discriminate.
        apply (In_body_event con') in Hin; [|eapply body_trace_events; eauto].
        destruct Hin. }
    destruct Hc as [-> ->]. now exists body, rb, rc.
Qed.

(** A run in which [connect] raised ends there. *)
Lemma main_trace_unconnected g d r db e :
  main_trace g d r ->
  In (EvConnect db (Raise e)) d ->
  d = [EvLogHeader "P05 DuckDB Pipeline — Library Domain";
       EvMkdir (ARTIFACTS_DIR g) (Ok tt);
       EvConnect db (Raise e)]
  /\ r = Raise e.
Proof.
  intros [e'|e'|con' body rb rc Hb] Hin.
  - simpl in Hin. destruct Hin as [H|[H|[]]]; discriminate.
  - simpl in Hin. destruct Hin as [H|[H|[H|[]]]]; try discriminate.
    inversion H; subst. now split.
  - simpl in Hin. destruct Hin as [H|[H|[H|Hin]]]; try discriminate.
    apply in_app_or in Hin. destruct Hin as [Hin|[H|[]]]; try discriminate.
    apply (In_body_event con') in Hin; [|eapply body_trace_events; eauto].
    destruct Hin.
Qed.

(** In a run of [main], a body call that raised is followed by [close]
    and nothing else, every call before it returned, and [main] ends with
    its exception unless [close] raises one. *)
Lemma body_failure_is_final g d r ev x :
  main_trace g d r ->
  In ev d -> is_body_call ev = true -> exn_of ev = Some x ->
  exists pre con rc,
    d = pre ++ [ev; EvClose con rc]
    /\ Forall quiet pre
    /\ Forall (fun e0 => is_close e0 = false) pre
    /\ In (EvConnect (path_str (DB_PATH g)) (Ok con)) pre
    /\ r = finally (Raise x) rc.
Proof.
  intros [e|e|con body rb rc Hb] Hin Hcall Hx.
  - simpl in Hin. destruct Hin as [<-|[<-|[]]]; discriminate.
  - simpl in Hin. destruct Hin as [<-|[<-|[<-|[]]]]; discriminate.
  - simpl in Hin. destruct Hin as [<-|[<-|[<-|Hin]]]; try discriminate.
    apply in_app_or in Hin. destruct Hin as [Hin|[<-|[]]]; try discriminate.
    pose proof (body_trace_events _ _ _ _ Hb) as Hev.
    apply body_trace_halted in Hb.
    destruct rb as [u|x']; simpl in Hb.
    + rewrite Forall_forall in Hb. apply Hb in Hin.
      unfold quiet in Hin. congruence.
    + destruct Hb as (pre & ev' & -> & Hq & Hx').
      apply Forall_app in Hev. destruct Hev as [Hev _].
      apply in_app_or in Hin. destruct Hin as [Hin|[<-|[]]].
      * rewrite Forall_forall in Hq. apply Hq in Hin.
        unfold quiet in Hin. congruence.
      * assert (x' = x) by congruence. subst x'.
        exists ([EvLogHeader "P05 DuckDB Pipeline — Library Domain";
                 EvMkdir (ARTIFACTS_DIR g) (Ok tt);
                 EvConnect (path_str (DB_PATH g)) (Ok con)] ++ pre), con, rc.
        repeat split.
        -- simpl. now rewrite <- app_assoc.
        -- repeat (constructor; [reflexivity|]). exact Hq.
        -- repeat (constructor; [reflexivity|]).
           eapply Forall_impl; [|exact Hev]. apply body_event_not_close.
        -- simpl. auto.
Qed.

Lemma decoded_ok rr sql :
  decoded rr = Ok sql ->
  exists bs s, rr = Ok bs /\ utf8_decode bs = Some s /\ sql = universal_newlines s.
Proof.
  destruct rr as [bs|e]; simpl; [|discriminate].
  destruct (utf8_decode bs) as [s|] eqn:Hs; [|discriminate].
  intros [= <-]. now exists bs, s.
Qed.

Lemma executes_decoded_app d1 d2 :
  executes_decoded d1 -> executes_decoded d2 -> executes_decoded (d1 ++ d2).
Proof.
  intros H1 H2 con sql rx Hin. apply in_app_or in Hin.
  destruct Hin as [Hin|Hin]; [apply H1 in Hin|apply H2 in Hin];
    destruct Hin as (p & bs & s & Hr & Hd & Hs);
    exists p, bs, s; repeat split; trivial; apply in_or_app; auto.
Qed.

Lemma script_trace_decoded con p d r :
  script_trace con p d r -> executes_decoded d.
Proof.
  destruct 1 as [rr e Hd|rr sql e Hd|rr sql cur Hd]; intros c q rx Hin; simpl in Hin.
  - destruct Hin as [H|[H|[]]]; discriminate.
  - destruct Hin as [H|[H|[H|[]]]]; try discriminate.
    inversion H; subst. apply decoded_ok in Hd.
    destruct Hd as (bs & s & -> & Hs & ->). exists p, bs, s. simpl. auto.
  - destruct Hin as [H|[H|[H|[]]]]; try discriminate.
    inversion H; subst. apply decoded_ok in Hd.
    destruct Hd as (bs & s & -> & Hs & ->). exists p, bs, s. simpl. auto.
Qed.

Lemma In_info_map {A} (f : A -> string) xs ev :
  In ev (map (fun x => EvInfo (f x)) xs) -> exists m, ev = EvInfo m.
Proof.
  intros Hin. apply in_map_iff in Hin. destruct Hin as (x & <- & _). eauto.
Qed.

Lemma query_trace_decoded con p d r :
  query_trace con p d r -> executes_decoded d.
Proof.
  destruct 1 as [rr e Hd|rr sql e Hd|rr sql cur e Hd Hf|rr sql cur rows Hd Hf];
    intros c q rx Hin.
  - simpl in Hin. destruct Hin as [H|[H|[H|[]]]]; discriminate.
  - simpl in Hin. destruct Hin as [H|[H|[H|[H|[]]]]]; try discriminate.
    inversion H; subst. apply decoded_ok in Hd.
    destruct Hd as (bs & s & -> & Hs & ->). exists p, bs, s. simpl. auto.
  - simpl in Hin. destruct Hin as [H|[H|[H|[H|[H|[]]]]]]; try discriminate.
    inversion H; subst. apply decoded_ok in Hd.
    destruct Hd as (bs & s & -> & Hs & ->). exists p, bs, s. simpl. auto.
  - apply in_app_or in Hin. destruct Hin as [Hin|Hin].
    + simpl in Hin.
      destruct Hin as [H|[H|[H|[H|[H|[H|[H|[H|[H|[]]]]]]]]]]; try discriminate.
      inversion H; subst. apply decoded_ok in Hd.
      destruct Hd as (bs & s & -> & Hs & ->). exists p, bs, s.
      repeat split; trivial. simpl. auto.
    + apply In_info_map in Hin. destruct Hin as (m & Hm). discriminate.
Qed.

Lemma and_then_decoded (T1 T2 : list Event -> Outcome unit -> Prop) :
  (forall d r, T1 d r -> executes_decoded d) ->
  (forall d r, T2 d r -> executes_decoded d) ->
  forall d r, and_then T1 T2 d r -> executes_decoded d.
Proof.
  intros H1 H2 d r [d1 e Hd|d1 d2 r' Hd1 Hd2]; eauto.
  apply executes_decoded_app; eauto.
Qed.

Lemma body_trace_decoded con g :
  forall d r, body_trace con g d r -> executes_decoded d.
Proof.
  unfold body_trace.
  repeat apply and_then_decoded;
    eauto using script_trace_decoded, query_trace_decoded.
Qed.

Lemma main_trace_decoded g d r : main_trace g d r -> executes_decoded d.
Proof.
  intros [e|e|con body rb rc Hb].
  - intros c q rx Hin. simpl in Hin. destruct Hin as [H|[H|[]]]; discriminate.
  - intros c q rx Hin. simpl in Hin.
    destruct Hin as [H|[H|[H|[]]]]; discriminate.
  - apply executes_decoded_app; [|apply executes_decoded_app].
    + intros c q rx Hin. simpl in Hin.
      destruct Hin as [H|[H|[H|[]]]]; discriminate.
    + eapply body_trace_decoded; eauto.
    + intros c q rx Hin. simpl in Hin. destruct Hin as [H|[]]; discriminate.
Qed.

(* ===================================================================== *)
(** * The call made just before *)
(* ===================================================================== *)

Lemma last_cons_default {A} (l : list A) : forall x d, last (x :: l) d = last l x.
Proof.
  induction l as [|y l IH]; intros x d; [reflexivity|].
  change (last (x :: y :: l) d) with (last (y :: l) d).
  now rewrite !IH.
Qed.

Lemma last_call_cons prev ev d :
  last_call prev (ev :: d) = last_call (Some ev) d.
Proof. unfold last_call. simpl map. apply last_cons_default. Qed.

Lemma last_call_some prev pre a :
  last_call prev pre = Some a ->
  (pre = [] /\ prev = Some a) \/ exists pre', pre = pre' ++ [a].
Proof.
  destruct pre as [|x pre0].
  - unfold last_call. simpl. intros ->. now left.
  - destruct (@exists_last _ (x :: pre0)) as (pre' & y & Hy); [discriminate|].
    rewrite Hy. unfold last_call. rewrite map_app. simpl. rewrite last_last.
    intros [= ->]. right. now exists pre'.
Qed.

(* ===================================================================== *)
(** * Executions are fed by reads *)
(* ===================================================================== *)

Lemma fed_app d1 : forall prev d2,
  fed prev (d1 ++ d2) <-> fed prev d1 /\ fed (last_call prev d1) d2.
Proof.
  induction d1 as [|ev d1 IH]; intros prev d2.
  - simpl. unfold last_call. simpl. tauto.
  - rewrite last_call_cons. simpl. rewrite IH. tauto.
Qed.

Lemma fed_info {A} (f : A -> string) xs :
  forall prev, fed prev (map (fun x => EvInfo (f x)) xs).
Proof. induction xs as [|x xs IH]; intros prev; simpl; auto. Qed.

Lemma script_trace_fed con p d r :
  script_trace con p d r -> forall prev, fed prev d.
Proof.
  destruct 1; intros prev; simpl; repeat split; trivial;
    eexists _, _; (split; [reflexivity|assumption]).
Qed.

Lemma query_trace_fed con p d r :
  query_trace con p d r -> forall prev, fed prev d.
Proof.
  destruct 1; intros prev;
    try (apply fed_app; split; [|apply fed_info]);
    simpl; repeat split; trivial;
    eexists _, _; (split; [reflexivity|assumption]).
Qed.

Lemma and_then_fed (T1 T2 : list Event -> Outcome unit -> Prop) :
  (forall d r, T1 d r -> forall prev, fed prev d) ->
  (forall d r, T2 d r -> forall prev, fed prev d) ->
  forall d r, and_then T1 T2 d r -> forall prev, fed prev d.
Proof.
  intros H1 H2 d r [d1 e Hd|d1 d2 r' Hd1 Hd2] prev; eauto.
  apply fed_app. split; eauto.
Qed.

Lemma body_trace_fed con g :
  forall d r, body_trace con g d r -> forall prev, fed prev d.
Proof.
  unfold body_trace.
  repeat apply and_then_fed;
    eauto using script_trace_fed, query_trace_fed.
Qed.

Lemma main_trace_fed g d r : main_trace g d r -> fed None d.
Proof.
  intros [e|e|con body rb rc Hb]; simpl; auto.
  repeat split. apply fed_app. split.
  - eapply body_trace_fed; eauto.
  - simpl. auto.
Qed.

(** In a fed list, what comes just before an execution is the read of
    the file its text was decoded from. *)
Lemma fed_split pre con sql rx post :
  fed None (pre ++ EvExecute con sql rx :: post) ->
  exists pre' p rr, pre = pre' ++ [EvRead p rr] /\ decoded rr = Ok sql.
Proof.
  intros H. apply fed_app in H. destruct H as [_ H].
  simpl in H. destruct H as [(p & rr & Hl & Hd) _].
  apply last_call_some in Hl. destruct Hl as [[_ Hn]|(pre' & ->)].
  - discriminate.
  - now exists pre', p, rr.
Qed.

(* ===================================================================== *)
(** * The order of the stages *)
(* ===================================================================== *)

Lemma script_trace_on_plan con p d r :
  script_trace con p d r -> exists t, on_plan [Load p; Submit con t] d r.
Proof.
  destruct 1 as [rr e Hd|rr sql e Hd|rr sql cur Hd].
  - exists "". split; [now exists [Submit con ""]|discriminate].
  - exists sql. split; [now exists []|discriminate].
  - exists sql. split; [now exists []|reflexivity].
Qed.

Lemma query_trace_on_plan con p d r :
  query_trace con p d r -> exists t, on_plan [Load p; Submit con t] d r.
Proof.
  destruct 1 as [rr e Hd|rr sql e Hd|rr sql cur e Hd Hf|rr sql cur rows Hd Hf].
  - exists "". split; [now exists [Submit con ""]|discriminate].
  - exists sql. split; [now exists []|discriminate].
  - exists sql. split; [now exists []|discriminate].
  - exists sql. unfold on_plan. rewrite stages_app, stages_info. simpl.
    split; [now exists []|reflexivity].
Qed.

Lemma on_plan_app l1 l2 d1 d2 r :
  on_plan l1 d1 (Ok tt) -> on_plan l2 d2 r -> on_plan (l1 ++ l2) (d1 ++ d2) r.
Proof.
  intros [_ Hfull] [(rest & Hl2) Hfull2]. specialize (Hfull eq_refl). split.
  - exists rest. rewrite stages_app, Hfull, <- app_assoc. now f_equal.
  - intros Hr. now rewrite stages_app, Hfull, (Hfull2 Hr).
Qed.

Lemma on_plan_raise l1 l2 d e :
  on_plan l1 d (Raise e) -> on_plan (l1 ++ l2) d (Raise e).
Proof.
  intros [(rest & ->) _]. split; [|discriminate].
  exists (rest ++ l2). now rewrite app_assoc.
Qed.

(** The [try] body follows the plan after [Open], with some texts. *)
Lemma body_trace_on_plan con g d r :
  body_trace con g d r ->
  exists t1 t2 t3 t4, on_plan (tl (plan g con t1 t2 t3 t4)) d r.
Proof.
  unfold body_trace, plan. simpl tl.
  intros H. inversion H as [d1 e H1|d1 d' r1 H1 H'];
    subst; clear H.
  { apply script_trace_on_plan in H1. destruct H1 as (t1 & H1).
    exists t1, "", "", "". apply (on_plan_raise [_; _]). exact H1. }
  apply script_trace_on_plan in H1. destruct H1 as (t1 & H1).
  inversion H' as [d2 e H2|d2 d'' r2 H2 H''];
    subst; clear H'.
  { apply script_trace_on_plan in H2. destruct H2 as (t2 & H2).
    exists t1, t2, "", "". apply (on_plan_app [_; _]); trivial.
    apply (on_plan_raise [_; _]). exact H2. }
  apply script_trace_on_plan in H2. destruct H2 as (t2 & H2).
  inversion H'' as [d3 e H3|d3 d4 r3 H3 H4];
    subst; clear H''.
  { apply query_trace_on_plan in H3. destruct H3 as (t3 & H3).
    exists t1, t2, t3, "". apply (on_plan_app [_; _]); trivial.
    apply (on_plan_app [_; _]); trivial.
    apply (on_plan_raise [_; _]). exact H3. }
  apply query_trace_on_plan in H3. destruct H3 as (t3 & H3).
  apply query_trace_on_plan in H4. destruct H4 as (t4 & H4).
  exists t1, t2, t3, t4. apply (on_plan_app [_; _]); trivial.
  apply (on_plan_app [_; _]); trivial.
  apply (on_plan_app [_; _] [_; _]); trivial.
Qed.

Lemma halted_after pre d r :
  Forall quiet pre -> halted d r -> halted (pre ++ d) r.
Proof.
  intros Hq Hh. destruct r as [u|x]; simpl in *.
  - now apply Forall_app.
  - destruct Hh as (pre' & ev & -> & Hq' & Hx).
    exists (pre ++ pre'), ev. rewrite app_assoc.
    repeat split; trivial. now apply Forall_app.
Qed.

(** A run of [main] is a stretch of calls that goes along the plan as far
    as the calls return, followed by [close] when the connection was
    opened. *)
Lemma main_trace_staged g d r :
  main_trace g d r ->
  exists con t1 t2 t3 t4 done rest core closing rcore,
    d = core ++ closing
    /\ plan g con t1 t2 t3 t4 = done ++ rest
    /\ stages core = done
    /\ halted core rcore
    /\ (rcore = Ok tt -> rest = [])
    /\ ((closing = [] /\ count is_connected core = 0 /\ r = rcore)
        \/ exists rc,
             closing = [EvClose con rc]
             /\ In (EvConnect (path_str (DB_PATH g)) (Ok con)) core
             /\ r = finally rcore rc).
Proof.
  intros [e|e|con body rb rc Hb].
  - exists 0%N, "", "", "", "", [], (plan g 0%N "" "" "" ""),
      [EvLogHeader "P05 DuckDB Pipeline — Library Domain";
       EvMkdir (ARTIFACTS_DIR g) (Raise e)], [], (Raise e).
    repeat split; try discriminate.
    + exists [EvLogHeader "P05 DuckDB Pipeline — Library Domain"],
        (EvMkdir (ARTIFACTS_DIR g) (Raise e)).
      repeat split. repeat constructor.
    + left. repeat split.
  - exists 0%N, "", "", "", "", [Open (path_str (DB_PATH g))],
      (tl (plan g 0%N "" "" "" "")),
      [EvLogHeader "P05 DuckDB Pipeline — Library Domain";
       EvMkdir (ARTIFACTS_DIR g) (Ok tt);
       EvConnect (path_str (DB_PATH g)) (Raise e)], [], (Raise e).
    repeat split; try discriminate.
    + exists [EvLogHeader "P05 DuckDB Pipeline — Library Domain";
              EvMkdir (ARTIFACTS_DIR g) (Ok tt)],
        (EvConnect (path_str (DB_PATH g)) (Raise e)).
      repeat split. repeat constructor.
    + left. repeat split.
  - destruct (body_trace_on_plan _ _ _ _ Hb)
      as (t1 & t2 & t3 & t4 & (rest & Hrest) & Hfull).
    exists con, t1, t2, t3, t4,
      (Open (path_str (DB_PATH g)) :: stages body), rest,
      ([EvLogHeader "P05 DuckDB Pipeline — Library Domain";
        EvMkdir (ARTIFACTS_DIR g) (Ok tt);
        EvConnect (path_str (DB_PATH g)) (Ok con)] ++ body),
      [EvClose con rc], rb.
    split; [now rewrite <- app_assoc|].
    split.
    { change (plan g con t1 t2 t3 t4)
        with (Open (path_str (DB_PATH g)) :: tl (plan g con t1 t2 t3 t4)).
      now rewrite Hrest. }
    split; [now rewrite stages_app|].
    split.
    { apply halted_after; [repeat constructor|].
      eapply body_trace_halted; eauto. }
    split.
    { intros Hr. specialize (Hfull Hr). rewrite Hfull in Hrest.
      rewrite <- (app_nil_r (tl (plan g con t1 t2 t3 t4))) in Hrest at 1.
      apply app_inv_head in Hrest. now subst. }
    right. exists rc. repeat split. simpl. auto.
Qed.

Lemma stages_probes cur r l :
  stages (map (probe cur r) l) = repeat Resolve (List.length l).
Proof. induction l; simpl; congruence. Qed.

Lemma quiet_probes cur b l : Forall quiet (map (probe cur (Ok b)) l).
Proof. induction l; simpl; constructor; trivial. reflexivity. Qed.

(** The module's top level probes for the marker, at most ten times, and
    does nothing else; it raises only what resolving or its last probe
    raised. *)
Lemma module_body_runs env file w :
  exists dp,
    snd (module_body env file w) = mkWorld (ext w) (trace w ++ dp)
    /\ stages dp = repeat Resolve (List.length dp)
    /\ List.length dp <= 10
    /\ ((exists e, fst (module_body env file w) = Raise e
           /\ (dp = []
               \/ exists pre ev, dp = pre ++ [ev]
                    /\ Forall quiet pre /\ exn_of ev = Some e))
        \/ (exists g, fst (module_body env file w) = Ok g
              /\ 1 <= List.length dp /\ Forall quiet dp)).
Proof.
  unfold module_body, bind, resolve, ret.
  destruct (fs_resolve env (ext w) file) as [here|e0] eqn:Hhere.
  2:{ exists []. simpl. rewrite app_nil_r. repeat split; try lia.
      - now destruct w.
      - left. exists e0. split; trivial. now left. }
  destruct (find_repo_root_cases env (parent here) w)
    as [(e & _ & Hrun)|(cur & _ & [(k & Hk & _ & _ & Hrun)
                                  |[(k & e & Hk & _ & _ & Hrun)|(_ & Hrun)]])];
    rewrite Hrun; simpl.
  - exists []. rewrite app_nil_r. repeat split; try (simpl; lia).
    + now destruct w.
    + left. exists e. split; trivial. now left.
  - exists (map (probe cur (Ok false)) (seq 0 k) ++ [probe cur (Ok true) k]).
    split; [reflexivity|].
    split; [rewrite stages_app, stages_probes, length_app, length_map;
            simpl; now rewrite repeat_app|].
    split; [rewrite length_app, length_map, length_seq; simpl; lia|].
    right. eexists. split; [reflexivity|].
    split; [rewrite length_app; simpl; lia|].
    apply Forall_app. split; [apply quiet_probes|].
    repeat constructor.
  - exists (map (probe cur (Ok false)) (seq 0 k) ++ [probe cur (Raise e) k]).
    split; [reflexivity|].
    split; [rewrite stages_app, stages_probes, length_app, length_map;
            simpl; now rewrite repeat_app|].
    split; [rewrite length_app, length_map, length_seq; simpl; lia|].
    left. exists e. split; trivial. right.
    exists (map (probe cur (Ok false)) (seq 0 k)), (probe cur (Raise e) k).
    repeat split. apply quiet_probes.
  - exists (map (probe cur (Ok false)) (seq 0 10)).
    split; [reflexivity|].
    split; [now rewrite stages_probes|].
    split; [rewrite length_map, length_seq; lia|].
    right. eexists. split; [reflexivity|].
    split; [rewrite length_map, length_seq; lia|].
    apply quiet_probes.
Qed.

(** A run in which making the directory raised ends there. *)
Lemma main_trace_no_directory g d r p e :
  main_trace g d r ->
  In (EvMkdir p (Raise e)) d ->
  d = [EvLogHeader "P05 DuckDB Pipeline — Library Domain";
       EvMkdir (ARTIFACTS_DIR g) (Raise e)]
  /\ r = Raise e.
Proof.
  intros [e'|e'|con' body rb rc Hb] Hin.
  - simpl in Hin. destruct Hin as [H|[H|[]]]; try discriminate.
    inversion H; subst. now split.
  - simpl in Hin. destruct Hin as [H|[H|[H|[]]]]; discriminate.
  - simpl in Hin. destruct Hin as [H|[H|[H|Hin]]]; try discriminate.
    apply in_app_or in Hin. destruct Hin as [Hin|[H|[]]]; try discriminate.
    apply (In_body_event con') in Hin; [|eapply body_trace_events; eauto].
    destruct Hin.
Qed.

(** Membership in an explicit list of calls. *)
Ltac find_in := repeat first [left; reflexivity | right].

(* ===================================================================== *)
(** * The path resolver: what it returns and what it examines *)
(* ===================================================================== *)

(** C3, as stated, fails, in two ways.  Started from the relative
    directory [work] on a disk without markers, [find_repo_root] does not
    return its input unchanged but the resolved path [/home/user/work].
    And it has another way to fail than falling back: started below a
    directory that may not be searched, the first probe raises and
    [find_repo_root] raises with it. *)
Lemma find_repo_root_resolves_relative_start :
  ((forall i, i < 10 ->
      marked Disk.env Scenario.bare (mkPath true ["home"; "user"; "work"]) i
      = Ok false)
   /\ fst (find_repo_root Disk.env (mkPath false ["work"]) (Disk.start Scenario.bare))
      = Ok (mkPath true ["home"; "user"; "work"])
   /\ fst (find_repo_root Disk.env (mkPath false ["work"]) (Disk.start Scenario.bare))
      <> Ok (mkPath false ["work"]))
  /\ fst (find_repo_root MoreScenarios.env_locked
            (mkPath true ["home"; "locked"; "work"])
            (MoreScenarios.start_in MoreScenarios.env_locked Scenario.bare))
     = Raise (OSError "PermissionError").
Proof.
  split; [split; [|split]|].
  - intros i Hi. do 10 (destruct i as [|i]; [reflexivity|]). lia.
  - reflexivity.
  - discriminate.
  - reflexivity.
Qed.

(** C3, amended.  [find_repo_root] raises what resolving its input
    raised.  Otherwise, with [cur] the resolved starting directory: if
    the probes of [cur] and of its ancestors answer "absent" up to one
    that answers "present", within the first ten, it returns that
    directory, the nearest that holds the marker; if all ten answer
    "absent", it returns [cur], the resolved form of its input, which is
    the input when the input is already resolved; if one of them raises
    after the earlier ones answered "absent", it raises that exception.
    It raises in no other case, and it leaves the outside world as it
    was. *)
Theorem find_repo_root_nearest_or_resolved (env : Env) (start : Path)
    (w : World (St env)) :
  (forall e, fs_resolve env (ext w) start = Raise e ->
             fst (find_repo_root env start w) = Raise e)
  /\ (forall cur, fs_resolve env (ext w) start = Ok cur ->
        (forall k, k < 10 ->
           marked env (ext w) cur k = Ok true ->
           (forall i, i < k -> marked env (ext w) cur i = Ok false) ->
           fst (find_repo_root env start w) = Ok (ancestor k cur))
        /\ ((forall i, i < 10 -> marked env (ext w) cur i = Ok false) ->
            fst (find_repo_root env start w) = Ok cur)
        /\ ((forall i, i < 10 -> marked env (ext w) cur i = Ok false) ->
            cur = start ->
            fst (find_repo_root env start w) = Ok start)
        /\ (forall k e, k < 10 ->
              marked env (ext w) cur k = Raise e ->
              (forall i, i < k -> marked env (ext w) cur i = Ok false) ->
              fst (find_repo_root env start w) = Raise e)
        /\ (forall e, fst (find_repo_root env start w) = Raise e ->
              exists k, k < 10
                /\ marked env (ext w) cur k = Raise e
                /\ forall i, i < k -> marked env (ext w) cur i = Ok false))
  /\ ext (snd (find_repo_root env start w)) = ext w.
Proof.
  destruct (find_repo_root_cases env start w)
    as [(e0 & Hres & Hrun)
       |(cur0 & Hres & [(k' & Hk' & Hm' & Hlt' & Hrun)
                       |[(k' & e' & Hk' & Hm' & Hlt' & Hrun)|(Hall & Hrun)]])];
    rewrite Hrun; simpl; (split; [|split; [|reflexivity]]).
  - intros e He. congruence.
  - intros cur Hc. congruence.
  - intros e He. congruence.
  - intros cur Hc. assert (cur = cur0) by congruence. subst cur0.
    refine (conj _ (conj _ (conj _ (conj _ _)))).
    + intros k Hk Hm Hlt.
      destruct (Nat.lt_trichotomy k k') as [Hlt1|[->|Hgt]]; trivial.
      * rewrite (Hlt' k Hlt1) in Hm. discriminate.
      * rewrite (Hlt k' Hgt) in Hm'. discriminate.
    + intros Hnone. rewrite (Hnone k' Hk') in Hm'. discriminate.
    + intros Hnone. rewrite (Hnone k' Hk') in Hm'. discriminate.
    + intros k e Hk Hm Hlt.
      destruct (Nat.lt_trichotomy k k') as [Hlt1|[->|Hgt]].
      * rewrite (Hlt' k Hlt1) in Hm. discriminate.
      * rewrite Hm' in Hm. discriminate.
      * rewrite (Hlt k' Hgt) in Hm'. discriminate.
    + intros e He. discriminate.
  - intros e He. congruence.
  - intros cur Hc. assert (cur = cur0) by congruence. subst cur0.
    refine (conj _ (conj _ (conj _ (conj _ _)))).
    + intros k Hk Hm Hlt.
      destruct (Nat.lt_trichotomy k k') as [Hlt1|[->|Hgt]].
      * rewrite (Hlt' k Hlt1) in Hm. discriminate.
      * rewrite Hm' in Hm. discriminate.
      * rewrite (Hlt k' Hgt) in Hm'. discriminate.
    + intros Hnone. rewrite (Hnone k' Hk') in Hm'. discriminate.
    + intros Hnone. rewrite (Hnone k' Hk') in Hm'. discriminate.
    + intros k e Hk Hm Hlt.
      destruct (Nat.lt_trichotomy k k') as [Hlt1|[->|Hgt]].
      * rewrite (Hlt' k Hlt1) in Hm. discriminate.
      * congruence.
      * rewrite (Hlt k' Hgt) in Hm'. discriminate.
    + intros e [= <-]. exists k'. repeat split; trivial.
  - intros e He. congruence.
  - intros cur Hc. assert (cur = cur0) by congruence. subst cur0.
    refine (conj _ (conj _ (conj _ (conj _ _)))).
    + intros k Hk Hm _. rewrite (Hall k Hk) in Hm. discriminate.
    + intros _. reflexivity.
    + intros _ Hcur. now rewrite Hcur.
    + intros k e Hk Hm _. rewrite (Hall k Hk) in Hm. discriminate.
    + intros e He. discriminate.
Qed.

(** On the healthy project, started from the directory of the script, the
    resolver returns the project root, two levels up. *)
Example find_repo_root_finds_project :
  fst (find_repo_root Disk.env (parent Scenario.file) (Disk.start Scenario.healthy))
  = Ok Scenario.root.
Proof. reflexivity. Qed.

(** Resolving through a symbolic link that points to itself raises, and
    [find_repo_root] with it, before any probe. *)
Example find_repo_root_raises_on_loop :
  find_repo_root MoreScenarios.env_loop (mkPath true ["home"; "loop"; "work"])
    (MoreScenarios.start_in MoreScenarios.env_loop Scenario.bare)
  = (Raise (RuntimeError "Symlink loop"),
     MoreScenarios.start_in MoreScenarios.env_loop Scenario.bare).
Proof. reflexivity. Qed.

(** C8: with [cur] the resolved starting directory, the walk probes [cur]
    first and stops there if it holds the marker; if none of [cur] and
    its first nine ancestors holds it, the walk has probed exactly these
    ten, in order, and the fallback is returned, whatever lies ten or
    more levels up; and no run probes anything but an initial stretch of
    these ten. *)
Theorem find_repo_root_probes_ten (env : Env) (start cur : Path)
    (w : World (St env)) :
  fs_resolve env (ext w) start = Ok cur ->
  (marked env (ext w) cur 0 = Ok true ->
   find_repo_root env start w
   = (Ok cur, mkWorld (ext w) (trace w ++ [probe cur (Ok true) 0])))
  /\ ((forall i, i < 10 -> marked env (ext w) cur i = Ok false) ->
      find_repo_root env start w
      = (Ok cur,
         mkWorld (ext w) (trace w ++ map (probe cur (Ok false)) (seq 0 10))))
  /\ (exists k found, k < 10
      /\ snd (find_repo_root env start w)
         = mkWorld (ext w)
             (trace w ++ map (probe cur (Ok false)) (seq 0 k)
                      ++ [probe cur found k])).
Proof.
  intros Hcur.
  destruct (find_repo_root_cases env start w)
    as [(e0 & Hres & Hrun)
       |(cur0 & Hres & [(k & Hk & Hm & Hlt & Hrun)
                       |[(k & e & Hk & Hm & Hlt & Hrun)|(Hall & Hrun)]])];
    [congruence| | |];
    assert (cur0 = cur) by congruence; subst cur0;
    rewrite Hrun; repeat split.
  - intros H0. destruct k as [|k]; [reflexivity|].
    rewrite (Hlt 0) in H0; [discriminate|lia].
  - intros Hnone. rewrite (Hnone k Hk) in Hm. discriminate.
  - exists k, (Ok true). split; trivial.
  - intros H0. destruct k as [|k]; [congruence|].
    rewrite (Hlt 0) in H0; [discriminate|lia].
  - intros Hnone. rewrite (Hnone k Hk) in Hm. discriminate.
  - exists k, (Raise e). split; trivial.
  - intros H0. rewrite (Hall 0) in H0; [discriminate|lia].
  - exists 9, (Ok false). split; [lia|]. reflexivity.
Qed.

(** From the deep directory, whose marker is ten levels up. *)
Lemma find_repo_root_probes_ten_witness :
  (marked Disk.env Scenario.deep (mkPath true Scenario.deep_dir) 0 = Ok true ->
   find_repo_root Disk.env (mkPath true Scenario.deep_dir) (Disk.start Scenario.deep)
   = (Ok (mkPath true Scenario.deep_dir),
      mkWorld (Scenario.deep : St Disk.env)
        ([] ++ [probe (mkPath true Scenario.deep_dir) (Ok true) 0])))
  /\ ((forall i, i < 10 ->
         marked Disk.env Scenario.deep (mkPath true Scenario.deep_dir) i = Ok false) ->
      find_repo_root Disk.env (mkPath true Scenario.deep_dir) (Disk.start Scenario.deep)
      = (Ok (mkPath true Scenario.deep_dir),
         mkWorld (Scenario.deep : St Disk.env)
           ([] ++ map (probe (mkPath true Scenario.deep_dir) (Ok false)) (seq 0 10))))
  /\ (exists k found, k < 10
      /\ snd (find_repo_root Disk.env (mkPath true Scenario.deep_dir)
                (Disk.start Scenario.deep))
         = mkWorld (Scenario.deep : St Disk.env)
             ([] ++ map (probe (mkPath true Scenario.deep_dir) (Ok false)) (seq 0 k)
                 ++ [probe (mkPath true Scenario.deep_dir) found k])).
Proof.
  apply (find_repo_root_probes_ten Disk.env (mkPath true Scenario.deep_dir)
           (mkPath true Scenario.deep_dir) (Disk.start Scenario.deep)).
  reflexivity.
Defined.

(** The marker ten levels above the start is not found. *)
Example find_repo_root_misses_tenth_level :
  marked Disk.env Scenario.deep (mkPath true Scenario.deep_dir) 10 = Ok true
  /\ fst (find_repo_root Disk.env (mkPath true Scenario.deep_dir)
            (Disk.start Scenario.deep))
     = Ok (mkPath true Scenario.deep_dir)
  /\ count is_exists
       (trace (snd (find_repo_root Disk.env (mkPath true Scenario.deep_dir)
                      (Disk.start Scenario.deep)))) = 10.
Proof. repeat split. Qed.

(* ===================================================================== *)
(** * The connection's life *)
(* ===================================================================== *)

(** C1: in every run of [main] in which [duckdb.connect] returned a
    connection, whatever the outcome of the run, the calls are the three
    opening ones, then calls of the [try] body only (logging, reading,
    executing on that connection, fetching), then one [close] of that
    connection as the last call: [close] is called exactly once, after
    every execution. *)
Theorem connection_closed_exactly_once (env : Env) (g : Constants)
    (w w' : World (St env)) (d : list Event) (r : Outcome unit)
    (db : string) (con : Conn) :
  runs (main env g) w d r w' ->
  In (EvConnect db (Ok con)) d ->
  exists body rc,
    d = [EvLogHeader "P05 DuckDB Pipeline — Library Domain";
         EvMkdir (ARTIFACTS_DIR g) (Ok tt);
         EvConnect db (Ok con)]
        ++ body ++ [EvClose con rc]
    /\ Forall (body_event con) body
    /\ count is_close d = 1.
Proof.
  intros Hrun Hin. apply main_runs in Hrun.
  destruct (main_trace_connected _ _ _ _ _ Hrun Hin)
    as (body & rb & rc & Hb & -> & _ & _).
  apply body_trace_events in Hb.
  exists body, rc. repeat split; trivial.
  rewrite !count_app, (body_events_no_close _ _ Hb). reflexivity.
Qed.

(** The engine rejects the load script: [main] raises, and the connection
    was closed once. *)
Lemma connection_closed_exactly_once_witness :
  fst (main Disk.env Scenario.g (Disk.start Scenario.malformed_load))
  = Raise (DuckDBError "Parser Error: syntax error")
  /\ exists body rc,
       trace (snd (main Disk.env Scenario.g (Disk.start Scenario.malformed_load)))
       = [EvLogHeader "P05 DuckDB Pipeline — Library Domain";
          EvMkdir (ARTIFACTS_DIR Scenario.g) (Ok tt);
          EvConnect "/home/user/proj/artifacts/duckdb/library.duckdb" (Ok 1%N)]
         ++ body ++ [EvClose 1%N rc]
       /\ Forall (body_event 1%N) body
       /\ count is_close
            (trace (snd (main Disk.env Scenario.g (Disk.start Scenario.malformed_load))))
          = 1.
Proof.
  split; [reflexivity|].
  apply (connection_closed_exactly_once Disk.env Scenario.g
           (Disk.start Scenario.malformed_load)
           (snd (main Disk.env Scenario.g (Disk.start Scenario.malformed_load)))
           _
           (fst (main Disk.env Scenario.g (Disk.start Scenario.malformed_load)))).
  - split; vm_compute; reflexivity.
  - vm_compute. find_in.
Defined.

(** C10: in a run of [main] in which [duckdb.connect] raised, [close] is
    never called, no SQL file is read, nothing is executed or fetched. *)
Theorem no_cleanup_without_connection (env : Env) (g : Constants)
    (w w' : World (St env)) (d : list Event) (r : Outcome unit)
    (db : string) (e : Exn) :
  runs (main env g) w d r w' ->
  In (EvConnect db (Raise e)) d ->
  count is_close d = 0
  /\ count is_read d = 0
  /\ count is_execute d = 0
  /\ count is_fetchall d = 0.
Proof.
  intros Hrun Hin. apply main_runs in Hrun.
  destruct (main_trace_unconnected _ _ _ _ _ Hrun Hin) as [-> _].
  repeat split.
Qed.

Lemma no_cleanup_without_connection_witness :
  count is_close
    (trace (snd (main Disk.env Scenario.g (Disk.start Scenario.corrupt_database)))) = 0
  /\ count is_read
       (trace (snd (main Disk.env Scenario.g (Disk.start Scenario.corrupt_database)))) = 0
  /\ count is_execute
       (trace (snd (main Disk.env Scenario.g (Disk.start Scenario.corrupt_database)))) = 0
  /\ count is_fetchall
       (trace (snd (main Disk.env Scenario.g (Disk.start Scenario.corrupt_database)))) = 0.
Proof.
  apply (no_cleanup_without_connection Disk.env Scenario.g
           (Disk.start Scenario.corrupt_database)
           (snd (main Disk.env Scenario.g (Disk.start Scenario.corrupt_database)))
           _
           (fst (main Disk.env Scenario.g (Disk.start Scenario.corrupt_database)))
           "/home/user/proj/artifacts/duckdb/library.duckdb"
           (DuckDBError "IO Error: not a valid DuckDB database file")).
  - split; vm_compute; reflexivity.
  - vm_compute. find_in.
Defined.

(** C6, as stated, fails.  With a file where the artifacts directory
    goes, the storage location cannot be written: [main] fails in
    [mkdir], with the [OSError] of [mkdir], and [duckdb.connect] is not
    even called; with a file that is no database where the database
    goes, [main] fails with the engine's own error.  Neither is a
    [ConnectionError]. *)
Lemma storage_failure_is_not_connection_error :
  fst (main Disk.env Scenario.g (Disk.start MoreScenarios.duckdb_is_file))
  = Raise (OSError "FileExistsError")
  /\ count is_connect
       (trace (snd (main Disk.env Scenario.g (Disk.start MoreScenarios.duckdb_is_file))))
     = 0
  /\ fst (main Disk.env Scenario.g (Disk.start Scenario.corrupt_database))
     = Raise (DuckDBError "IO Error: not a valid DuckDB database file")
  /\ (forall m, OSError "FileExistsError" <> ConnectionError m)
  /\ (forall m,
        DuckDBError "IO Error: not a valid DuckDB database file" <> ConnectionError m).
Proof. repeat split; discriminate. Qed.

(** C6, amended: in a run of [main] in which making the artifacts
    directory raised, or [duckdb.connect] raised, [main] raises that very
    exception; the call that raised is the last call of the run and every
    call before it returned; when it is [mkdir] that raised, [connect]
    is never called; and no SQL file is read, nothing is executed, and
    [close] is not called. *)
Theorem acquisition_failure_aborts (env : Env) (g : Constants)
    (w w' : World (St env)) (d : list Event) (r : Outcome unit) (e : Exn) :
  runs (main env g) w d r w' ->
  (exists p, In (EvMkdir p (Raise e)) d)
  \/ (exists db, In (EvConnect db (Raise e)) d) ->
  r = Raise e
  /\ (exists pre ev,
        d = pre ++ [ev] /\ Forall quiet pre /\ exn_of ev = Some e
        /\ (ev = EvMkdir (ARTIFACTS_DIR g) (Raise e)
            \/ ev = EvConnect (path_str (DB_PATH g)) (Raise e)))
  /\ ((exists p, In (EvMkdir p (Raise e)) d) -> count is_connect d = 0)
  /\ count is_read d = 0
  /\ count is_execute d = 0
  /\ count is_close d = 0.
Proof.
  intros Hrun Hfail. apply main_runs in Hrun.
  destruct Hfail as [(p & Hin)|(db & Hin)].
  - destruct (main_trace_no_directory _ _ _ _ _ Hrun Hin) as [-> ->].
    repeat split.
    exists [EvLogHeader "P05 DuckDB Pipeline — Library Domain"],
      (EvMkdir (ARTIFACTS_DIR g) (Raise e)).
    repeat split; auto. repeat constructor.
  - pose proof Hrun as Hrun'.
    destruct (main_trace_unconnected _ _ _ _ _ Hrun Hin) as [Hd ->].
    assert (db = path_str (DB_PATH g)) as ->.
    { subst d. inversion Hrun'; subst; trivial. }
    subst d. repeat split.
    + exists [EvLogHeader "P05 DuckDB Pipeline — Library Domain";
              EvMkdir (ARTIFACTS_DIR g) (Ok tt)],
        (EvConnect (path_str (DB_PATH g)) (Raise e)).
      repeat split; auto. repeat constructor.
    + intros (p & [H|[H|[H|[]]]]); discriminate.
Qed.

(** A file lies where the artifacts directory goes. *)
Lemma acquisition_failure_aborts_witness :
  fst (main Disk.env Scenario.g (Disk.start MoreScenarios.duckdb_is_file))
  = Raise (OSError "FileExistsError")
  /\ (exists pre ev,
        trace (snd (main Disk.env Scenario.g (Disk.start MoreScenarios.duckdb_is_file)))
        = pre ++ [ev]
        /\ Forall quiet pre /\ exn_of ev = Some (OSError "FileExistsError")
        /\ (ev = EvMkdir (ARTIFACTS_DIR Scenario.g) (Raise (OSError "FileExistsError"))
            \/ ev = EvConnect (path_str (DB_PATH Scenario.g))
                      (Raise (OSError "FileExistsError"))))
  /\ ((exists p,
         In (EvMkdir p (Raise (OSError "FileExistsError")))
            (trace (snd (main Disk.env Scenario.g
                           (Disk.start MoreScenarios.duckdb_is_file))))) ->
      count is_connect
        (trace (snd (main Disk.env Scenario.g (Disk.start MoreScenarios.duckdb_is_file))))
      = 0)
  /\ count is_read
       (trace (snd (main Disk.env Scenario.g (Disk.start MoreScenarios.duckdb_is_file))))
     = 0
  /\ count is_execute
       (trace (snd (main Disk.env Scenario.g (Disk.start MoreScenarios.duckdb_is_file))))
     = 0
  /\ count is_close
       (trace (snd (main Disk.env Scenario.g (Disk.start MoreScenarios.duckdb_is_file))))
     = 0.
Proof.
  apply (acquisition_failure_aborts Disk.env Scenario.g
           (Disk.start MoreScenarios.duckdb_is_file)
           (snd (main Disk.env Scenario.g (Disk.start MoreScenarios.duckdb_is_file)))).
  - split; vm_compute; reflexivity.
  - left. exists (ARTIFACTS_DIR Scenario.g). vm_compute. find_in.
Defined.

(* ===================================================================== *)
(** * Failures *)
(* ===================================================================== *)

(** C5: in every run of [main], a read, an execution or a fetch that
    raised is followed by [close] and by nothing else (no handler runs, no
    call is tried again, no later stage is entered), every call before it
    had returned, and [main] raises: the exception of the failed call, or
    the one [close] raised if it raised too. *)
Theorem execution_failure_propagates (env : Env) (g : Constants)
    (w w' : World (St env)) (d : list Event) (r : Outcome unit)
    (ev : Event) (x : Exn) :
  runs (main env g) w d r w' ->
  In ev d ->
  is_body_call ev = true ->
  exn_of ev = Some x ->
  exists pre con rc,
    d = pre ++ [ev; EvClose con rc]
    /\ Forall quiet pre
    /\ r = finally (Raise x) rc
    /\ r <> Ok tt.
Proof.
  intros Hrun Hin Hcall Hx. apply main_runs in Hrun.
  destruct (body_failure_is_final _ _ _ _ _ Hrun Hin Hcall Hx)
    as (pre & con & rc & -> & Hq & _ & _ & ->).
  exists pre, con, rc. repeat split; trivial.
  now destruct rc.
Qed.

Lemma execution_failure_propagates_witness :
  exists pre con rc,
    trace (snd (main Disk.env Scenario.g (Disk.start Scenario.malformed_load)))
    = pre ++ [EvExecute 1%N "COPY branch FROM 'data/library/branch.csv'"
                (Raise (DuckDBError "Parser Error: syntax error"));
              EvClose con rc]
    /\ Forall quiet pre
    /\ fst (main Disk.env Scenario.g (Disk.start Scenario.malformed_load))
       = finally (Raise (DuckDBError "Parser Error: syntax error")) rc
    /\ fst (main Disk.env Scenario.g (Disk.start Scenario.malformed_load)) <> Ok tt.
Proof.
  apply (execution_failure_propagates Disk.env Scenario.g
           (Disk.start Scenario.malformed_load)
           (snd (main Disk.env Scenario.g (Disk.start Scenario.malformed_load)))).
  - split; vm_compute; reflexivity.
  - vm_compute. find_in.
  - reflexivity.
  - reflexivity.
Defined.

(** [main] returns normally only when every call it made returned. *)
Lemma main_returns_only_if_all_calls_return (env : Env) (g : Constants)
    (w w' : World (St env)) (d : list Event) :
  runs (main env g) w d (Ok tt) w' -> Forall quiet d.
Proof.
  intros Hrun. apply main_runs in Hrun.
  inversion Hrun as [| |con body rb rc Hb Hd Hr]; subst.
  destruct rc as [[]|]; [|discriminate]. simpl in Hr. subst rb.
  apply body_trace_halted in Hb. simpl in Hb.
  repeat (constructor; [reflexivity|]).
  apply Forall_app. split; trivial. now repeat constructor.
Qed.

(** C9: in every run of [main], a text that is executed is the strict
    UTF-8 decoding (newlines translated) of the bytes of a SQL file that
    was read; and when the bytes read from a file are not well-formed
    UTF-8, the text is not executed: the read comes after the connection
    was opened and is followed by [close] only, [close] is called once,
    and [main] raises [UnicodeDecodeError] (or what [close] raised), an
    exception that is neither [FileNotFoundError] nor an engine error. *)
Theorem undecodable_sql_aborts (env : Env) (g : Constants)
    (w w' : World (St env)) (d : list Event) (r : Outcome unit) :
  runs (main env g) w d r w' ->
  executes_decoded d
  /\ forall p bs,
       In (EvRead p (Ok bs)) d ->
       utf8_valid bs = false ->
       exists pre con rc,
         d = pre ++ [EvRead p (Ok bs); EvClose con rc]
         /\ In (EvConnect (path_str (DB_PATH g)) (Ok con)) pre
         /\ count is_close d = 1
         /\ r = finally (Raise UnicodeDecodeError) rc
         /\ (forall f, UnicodeDecodeError <> FileNotFoundError f)
         /\ (forall m, UnicodeDecodeError <> DuckDBError m).
Proof.
  intros Hrun. apply main_runs in Hrun. split.
  - eapply main_trace_decoded; eauto.
  - intros p bs Hin Hbad.
    assert (Hx : exn_of (EvRead p (Ok bs)) = Some UnicodeDecodeError).
    { simpl. unfold utf8_decode. now rewrite Hbad. }
    destruct (body_failure_is_final _ _ _ _ _ Hrun Hin eq_refl Hx)
      as (pre & con & rc & -> & _ & Hnc & Hconn & ->).
    exists pre, con, rc. repeat split; trivial; try discriminate.
    rewrite count_app, (count_none _ _ Hnc). reflexivity.
Qed.

(** The counts query file holds the byte 0xFF. *)
Lemma undecodable_sql_aborts_witness :
  exists pre con rc,
    trace (snd (main Disk.env Scenario.g (Disk.start Scenario.undecodable_counts)))
    = pre ++ [EvRead (COUNTS_SQL Scenario.g) (Ok [xff]); EvClose con rc]
    /\ In (EvConnect (path_str (DB_PATH Scenario.g)) (Ok con)) pre
    /\ count is_close
         (trace (snd (main Disk.env Scenario.g (Disk.start Scenario.undecodable_counts))))
       = 1
    /\ fst (main Disk.env Scenario.g (Disk.start Scenario.undecodable_counts))
       = finally (Raise UnicodeDecodeError) rc
    /\ (forall f, UnicodeDecodeError <> FileNotFoundError f)
    /\ (forall m, UnicodeDecodeError <> DuckDBError m).
Proof.
  apply (undecodable_sql_aborts Disk.env Scenario.g
           (Disk.start Scenario.undecodable_counts)
           (snd (main Disk.env Scenario.g (Disk.start Scenario.undecodable_counts)))
           _
           (fst (main Disk.env Scenario.g (Disk.start Scenario.undecodable_counts)))).
  - split; vm_compute; reflexivity.
  - vm_compute. find_in.
  - reflexivity.
Defined.

(* ===================================================================== *)
(** * The order of the stages *)
(* ===================================================================== *)

(** C2: every run of the script is the probes of the path resolver, at
    most ten, followed by the run of [main], which starts only when the
    module's top level returned.  The run of [main] goes along the plan
    -- open the connection on the database file; read the create-tables
    script and submit its text; the same for the load-data script, the
    counts query and the KPI query -- in that order and as far as the
    calls return: its calls before [close] stop at the first call that
    raised, or complete the plan.  Each text is submitted on the
    connection that [connect] returned and right after the read of the
    file it was decoded from.  [close] of that connection follows, last,
    exactly when the connection was opened.  The script returns only
    when the whole plan was gone through and [close] returned. *)
Theorem stages_in_order (env : Env) (file : Path) (w w' : World (St env))
    (d : list Event) (r : Outcome unit) :
  runs (script env file) w d r w' ->
  exists dp dm,
    d = dp ++ dm
    /\ stages dp = repeat Resolve (List.length dp)
    /\ List.length dp <= 10
    /\ ((exists e,
           fst (module_body env file w) = Raise e
           /\ dm = [] /\ r = Raise e
           /\ (dp = []
               \/ exists pre ev, dp = pre ++ [ev]
                    /\ Forall quiet pre /\ exn_of ev = Some e))
        \/ (exists g con t1 t2 t3 t4 done rest core closing rcore,
              fst (module_body env file w) = Ok g
              /\ 1 <= List.length dp /\ Forall quiet dp
              /\ dm = core ++ closing
              /\ plan g con t1 t2 t3 t4 = done ++ rest
              /\ stages core = done
              /\ halted core rcore
              /\ (rcore = Ok tt -> rest = [])
              /\ ((closing = [] /\ count is_connected core = 0 /\ r = rcore)
                  \/ exists rc,
                       closing = [EvClose con rc]
                       /\ In (EvConnect (path_str (DB_PATH g)) (Ok con)) core
                       /\ r = finally rcore rc)
              /\ (forall pre c sql rx post,
                    dm = pre ++ EvExecute c sql rx :: post ->
                    exists pre' p rr,
                      pre = pre' ++ [EvRead p rr] /\ decoded rr = Ok sql))).
Proof.
  intros [Hc Ht].
  destruct (module_body_runs env file w) as (dp & Hsnd & Hst & Hlen & Hcase).
  unfold script, bind in Hc.
  destruct (module_body env file w) as [[g|e] w1] eqn:Hm;
    simpl in Hsnd, Hcase; subst w1.
  - destruct Hcase as [(e & He & _)|(g' & Hg & Hone & Hq)]; [discriminate|].
    destruct (main_sound env g (mkWorld (ext w) (trace w ++ dp)))
      as (dm & HT & Htr).
    rewrite Hc in HT, Htr. simpl in HT, Htr.
    rewrite Ht, <- app_assoc in Htr. apply app_inv_head in Htr. subst d.
    exists dp, dm. repeat split; trivial.
    right.
    destruct (main_trace_staged _ _ _ HT)
      as (con & t1 & t2 & t3 & t4 & done & rest & core & closing & rcore
          & Hd & Hp & Hs & Hh & Hfull & Hcl).
    exists g, con, t1, t2, t3, t4, done, rest, core, closing, rcore.
    repeat split; trivial.
    intros pre c sql rx post Hsplit. apply main_trace_fed in HT.
    rewrite Hsplit in HT. eapply fed_split; eauto.
  - injection Hc as <- <-. simpl in Ht. apply app_inv_head in Ht. subst d.
    exists dp, []. rewrite app_nil_r. repeat split; trivial.
    left. destruct Hcase as [(e' & [= <-] & Hlast)|(g & Hg & _)]; [|discriminate].
    exists e. repeat split; trivial.
Qed.

(** On the healthy project the script returns, having gone through three
    probes, the whole plan and [close]. *)
Lemma stages_in_order_witness :
  fst (script Disk.env Scenario.file (Disk.start Scenario.healthy)) = Ok tt
  /\ stages (trace (snd (script Disk.env Scenario.file (Disk.start Scenario.healthy))))
     = [Resolve; Resolve; Resolve]
       ++ plan Scenario.g 1%N
            "CREATE TABLE branch (id INTEGER PRIMARY KEY)"
            "COPY branch FROM 'data/library/branch.csv'"
            "SELECT 'branch', COUNT(*) FROM branch"
            "SELECT AVG(n) FROM checkout"
       ++ [Close 1%N]
  /\ exists dp dm,
       trace (snd (script Disk.env Scenario.file (Disk.start Scenario.healthy))) = dp ++ dm
       /\ stages dp = repeat Resolve (List.length dp)
       /\ List.length dp <= 10
       /\ ((exists e,
              fst (module_body Disk.env Scenario.file (Disk.start Scenario.healthy)) = Raise e
              /\ dm = [] /\ fst (script Disk.env Scenario.file (Disk.start Scenario.healthy)) = Raise e
              /\ (dp = []
                  \/ exists pre ev, dp = pre ++ [ev]
                       /\ Forall quiet pre /\ exn_of ev = Some e))
           \/ (exists g con t1 t2 t3 t4 done rest core closing rcore,
                 fst (module_body Disk.env Scenario.file (Disk.start Scenario.healthy)) = Ok g
                 /\ 1 <= List.length dp /\ Forall quiet dp
                 /\ dm = core ++ closing
                 /\ plan g con t1 t2 t3 t4 = done ++ rest
                 /\ stages core = done
                 /\ halted core rcore
                 /\ (rcore = Ok tt -> rest = [])
                 /\ ((closing = [] /\ count is_connected core = 0
                      /\ fst (script Disk.env Scenario.file (Disk.start Scenario.healthy)) = rcore)
                     \/ exists rc,
                          closing = [EvClose con rc]
                          /\ In (EvConnect (path_str (DB_PATH g)) (Ok con)) core
                          /\ fst (script Disk.env Scenario.file (Disk.start Scenario.healthy)) = finally rcore rc)
                 /\ (forall pre c sql rx post,
                       dm = pre ++ EvExecute c sql rx :: post ->
                       exists pre' p rr,
                         pre = pre' ++ [EvRead p rr] /\ decoded rr = Ok sql))).
Proof.
  split; [vm_compute; reflexivity|]. split; [vm_compute; reflexivity|].
  apply (stages_in_order Disk.env Scenario.file (Disk.start Scenario.healthy)
           (snd (script Disk.env Scenario.file (Disk.start Scenario.healthy)))).
  split; vm_compute; reflexivity.
Defined.

(** When the engine rejects the load script, the queries are not
    reached. *)
Example malformed_load_run_stages :
  stages (trace (snd (script Disk.env Scenario.file (Disk.start Scenario.malformed_load))))
  = [Resolve; Resolve; Resolve;
     Open "/home/user/proj/artifacts/duckdb/library.duckdb";
     Load (CREATE_TABLES_SQL Scenario.g);
     Submit 1%N "CREATE TABLE branch (id INTEGER PRIMARY KEY)";
     Load (LOAD_DATA_SQL Scenario.g);
     Submit 1%N "COPY branch FROM 'data/library/branch.csv'";
     Close 1%N].
Proof. reflexivity. Qed.

(** Started below a directory that may not be searched, the script
    raises in the path resolver and [main] does not start. *)
Example locked_run_stages :
  script MoreScenarios.env_locked (mkPath true ["home"; "locked"; "work"; "run.py"])
    (MoreScenarios.start_in MoreScenarios.env_locked Scenario.bare)
  = (Raise (OSError "PermissionError"),
     mkWorld (Scenario.bare : St MoreScenarios.env_locked)
       [probe (mkPath true ["home"; "locked"; "work"])
          (Raise (OSError "PermissionError")) 0]).
Proof. reflexivity. Qed.

(* ===================================================================== *)
(** * The query report *)
(* ===================================================================== *)

(** C4: when a query is executed and its rows are fetched,
    [run_sql_query] returns, and the lines it logs are: an empty line and
    the line announcing the query; the name of the query file between two
    delimiter lines; the column names, in the order of the description,
    joined by [", "]; then one line for each row, in the order fetched,
    the row's values rendered by [str] in their order and joined by
    [", "]. *)
Theorem report_preserves_order (env : Env) (con : Conn) (p : Path)
    (w w' : World (St env)) (d : list Event) (r : Outcome unit)
    (sql : string) (cur : Cursor) (rows : list Row) :
  runs (run_sql_query env con p) w d r w' ->
  In (EvExecute con sql (Ok cur)) d ->
  cur_fetch cur = Ok rows ->
  r = Ok tt
  /\ log_lines d
     = [ ""; ("RUN SQL query: " ++ path_str p)%string;
         delimiter; name p; delimiter;
         join ", " (map col_name (cur_description cur)) ]
       ++ map (fun row => join ", " (map str row)) rows.
Proof.
  intros Hrun Hin Hf.
  apply (runs_sound _ _ _ _ _ _ (run_sql_query_sound env con p)) in Hrun.
  destruct Hrun as [rr e Hd|rr q e Hd|rr q c e Hd Hf'|rr q c rows' Hd Hf'].
  - simpl in Hin. destruct Hin as [H|[H|[H|[]]]]; discriminate.
  - simpl in Hin. destruct Hin as [H|[H|[H|[H|[]]]]]; discriminate.
  - simpl in Hin. destruct Hin as [H|[H|[H|[H|[H|[]]]]]]; try discriminate.
    inversion H; subst. congruence.
  - assert (c = cur) as ->.
    { apply in_app_or in Hin. destruct Hin as [Hin|Hin].
      - simpl in Hin.
        destruct Hin as [H|[H|[H|[H|[H|[H|[H|[H|[H|[]]]]]]]]]]; try discriminate.
        now inversion H.
      - apply In_info_map in Hin. destruct Hin as (m & Hm). discriminate. }
    assert (rows' = rows) as -> by congruence.
    split; trivial.
    rewrite log_lines_app, log_lines_info. reflexivity.
Qed.

(** The two rows and three columns of the counts query on the healthy
    project. *)
Lemma report_preserves_order_witness :
  fst (run_sql_query Disk.env 1%N (COUNTS_SQL Scenario.g) (Disk.start Scenario.healthy))
  = Ok tt
  /\ log_lines
       (trace (snd (run_sql_query Disk.env 1%N (COUNTS_SQL Scenario.g)
                      (Disk.start Scenario.healthy))))
     = [ ""; ("RUN SQL query: " ++ path_str (COUNTS_SQL Scenario.g))%string;
         delimiter; name (COUNTS_SQL Scenario.g); delimiter;
         join ", " (map col_name (cur_description Scenario.counts_cursor)) ]
       ++ map (fun row => join ", " (map str row))
            [ [VStr "branch"; VInt 5; VNone]; [VStr "checkout"; VInt 120; VBool true] ].
Proof.
  apply (report_preserves_order Disk.env 1%N (COUNTS_SQL Scenario.g)
           (Disk.start Scenario.healthy)
           (snd (run_sql_query Disk.env 1%N (COUNTS_SQL Scenario.g)
                   (Disk.start Scenario.healthy)))
           _ _
           "SELECT 'branch', COUNT(*) FROM branch"
           Scenario.counts_cursor).
  - split; vm_compute; reflexivity.
  - vm_compute. find_in.
  - reflexivity.
Defined.

(** The report of that query, as logged. *)
Example counts_report_lines :
  log_lines
    (trace (snd (run_sql_query Disk.env 1%N (COUNTS_SQL Scenario.g)
                   (Disk.start Scenario.healthy))))
  = [ "";
      "RUN SQL query: /home/user/proj/sql/duckdb/query_library_counts.sql";
      "====================================";
      "query_library_counts.sql";
      "====================================";
      "table_name, n, flag";
      "branch, 5, None";
      "checkout, 120, True" ].
Proof. reflexivity. Qed.


(* ===================================================================== *)
(** * More about [main] *)
(* ===================================================================== *)

Lemma body_event_counts con d :
  Forall (body_event con) d ->
  count is_mkdir d = 0 /\ count is_connect d = 0
  /\ count is_connected d = 0 /\ count is_close d = 0.
Proof.
  intros H. repeat split; apply count_none;
    (eapply Forall_impl; [|exact H]); intros ev Hev; now destruct ev.
Qed.

(** X1: in every run of [main], the directory is made once, [connect] is
    called at most once, and [close] is called exactly as many times as
    [connect] returned a connection. *)
Theorem closes_balance_connections (env : Env) (g : Constants)
    (w w' : World (St env)) (d : list Event) (r : Outcome unit) :
  runs (main env g) w d r w' ->
  count is_mkdir d = 1
  /\ count is_connect d <= 1
  /\ count is_close d = count is_connected d.
Proof.
  intros Hrun. apply main_runs in Hrun.
  destruct Hrun as [e|e|con body rb rc Hb].
  - unfold count. simpl. lia.
  - unfold count. simpl. lia.
  - apply body_trace_events in Hb.
    destruct (body_event_counts _ _ Hb) as (Hm & Hc & Hcd & Hcl).
    rewrite !count_app, Hm, Hc, Hcd, Hcl. unfold count. simpl. lia.
Qed.

Lemma closes_balance_connections_witness :
  count is_mkdir
    (trace (snd (main Disk.env Scenario.g (Disk.start Scenario.malformed_load)))) = 1
  /\ count is_connect
       (trace (snd (main Disk.env Scenario.g (Disk.start Scenario.malformed_load)))) <= 1
  /\ count is_close
       (trace (snd (main Disk.env Scenario.g (Disk.start Scenario.malformed_load))))
     = count is_connected
         (trace (snd (main Disk.env Scenario.g (Disk.start Scenario.malformed_load)))).
Proof.
  apply (closes_balance_connections Disk.env Scenario.g
           (Disk.start Scenario.malformed_load)
           (snd (main Disk.env Scenario.g (Disk.start Scenario.malformed_load)))
           _
           (fst (main Disk.env Scenario.g (Disk.start Scenario.malformed_load)))).
  split; vm_compute; reflexivity.
Defined.

(** X2: in a run of [main] in which making the artifacts directory
    raised, [main] raises that exception right away: the title and the
    [mkdir] are all the calls made, and [connect] is never called. *)
Theorem unmade_directory_aborts (env : Env) (g : Constants)
    (w w' : World (St env)) (d : list Event) (r : Outcome unit)
    (p : Path) (e : Exn) :
  runs (main env g) w d r w' ->
  In (EvMkdir p (Raise e)) d ->
  d = [EvLogHeader "P05 DuckDB Pipeline — Library Domain";
       EvMkdir (ARTIFACTS_DIR g) (Raise e)]
  /\ r = Raise e
  /\ count is_connect d = 0.
Proof.
  intros Hrun Hin. apply main_runs in Hrun.
  destruct Hrun as [e'|e'|con body rb rc Hb].
  - simpl in Hin. destruct Hin as [H|[H|[]]]; try discriminate.
    inversion H; subst. repeat split.
  - simpl in Hin. destruct Hin as [H|[H|[H|[]]]]; discriminate.
  - simpl in Hin. destruct Hin as [H|[H|[H|Hin]]]; try discriminate.
    apply in_app_or in Hin. destruct Hin as [Hin|[H|[]]]; try discriminate.
    apply (In_body_event con) in Hin; [|eapply body_trace_events; eauto].
    destruct Hin.
Qed.

(** A file named [artifacts] is in the way. *)
Lemma unmade_directory_aborts_witness :
  trace (snd (main Disk.env Scenario.g (Disk.start MoreScenarios.blocked)))
  = [EvLogHeader "P05 DuckDB Pipeline — Library Domain";
     EvMkdir (ARTIFACTS_DIR Scenario.g) (Raise (OSError "FileExistsError"))]
  /\ fst (main Disk.env Scenario.g (Disk.start MoreScenarios.blocked))
     = Raise (OSError "FileExistsError")
  /\ count is_connect
       (trace (snd (main Disk.env Scenario.g (Disk.start MoreScenarios.blocked)))) = 0.
Proof.
  apply (unmade_directory_aborts Disk.env Scenario.g
           (Disk.start MoreScenarios.blocked)
           (snd (main Disk.env Scenario.g (Disk.start MoreScenarios.blocked)))
           _ _
           (ARTIFACTS_DIR Scenario.g)).
  - split; vm_compute; reflexivity.
  - vm_compute. find_in.
Defined.

(** X3: in a run of [main] in which [close] raised, [main] raises the
    exception of [close], whether the [try] body had returned or raised:
    an exception of the body is replaced. *)
Theorem close_exception_replaces (env : Env) (g : Constants)
    (w w' : World (St env)) (d : list Event) (r : Outcome unit)
    (con : Conn) (e : Exn) :
  runs (main env g) w d r w' ->
  In (EvClose con (Raise e)) d ->
  r = Raise e.
Proof.
  intros Hrun Hin. apply main_runs in Hrun.
  destruct Hrun as [e'|e'|con' body rb rc Hb].
  - simpl in Hin. destruct Hin as [H|[H|[]]]; discriminate.
  - simpl in Hin. destruct Hin as [H|[H|[H|[]]]]; discriminate.
  - simpl in Hin. destruct Hin as [H|[H|[H|Hin]]]; try discriminate.
    apply in_app_or in Hin. destruct Hin as [Hin|[H|[]]].
    + apply (In_body_event con') in Hin; [|eapply body_trace_events; eauto].
      destruct Hin.
    + inversion H; subst. reflexivity.
Qed.

(** The engine rejects the load script and then [close] raises: the
    parser error is lost. *)
Lemma close_exception_replaces_witness :
  In (EvExecute 1%N "COPY branch FROM 'data/library/branch.csv'"
        (Raise (DuckDBError "Parser Error: syntax error")))
     (trace (snd (main MoreScenarios.env_close_raises Scenario.g
                    (MoreScenarios.start_close_raises Scenario.malformed_load))))
  /\ fst (main MoreScenarios.env_close_raises Scenario.g
            (MoreScenarios.start_close_raises Scenario.malformed_load))
     = Raise (DuckDBError "IO Error: checkpoint failed").
Proof.
  split; [vm_compute; find_in|].
  apply (close_exception_replaces MoreScenarios.env_close_raises Scenario.g
           (MoreScenarios.start_close_raises Scenario.malformed_load)
           (snd (main MoreScenarios.env_close_raises Scenario.g
                   (MoreScenarios.start_close_raises Scenario.malformed_load)))
           (trace (snd (main MoreScenarios.env_close_raises Scenario.g
                   (MoreScenarios.start_close_raises Scenario.malformed_load))))
           _ 1%N).
  - split; vm_compute; reflexivity.
  - vm_compute. find_in.
Defined.

(* ===================================================================== *)
(** * More about the two runners *)
(* ===================================================================== *)

Lemma script_runs env con p w d r w' :
  runs (run_sql_script env con p) w d r w' -> script_trace con p d r.
Proof. apply runs_sound, run_sql_script_sound. Qed.

Lemma query_runs env con p w d r w' :
  runs (run_sql_query env con p) w d r w' -> query_trace con p d r.
Proof. apply runs_sound, run_sql_query_sound. Qed.

(** X4: every run of [run_sql_script] logs one line, the announcement,
    and never fetches; it returns exactly when [execute] returned,
    whatever cursor came back, also one whose rows cannot be fetched. *)
Theorem script_discards_result (env : Env) (con : Conn) (p : Path)
    (w w' : World (St env)) (d : list Event) (r : Outcome unit) :
  runs (run_sql_script env con p) w d r w' ->
  log_lines d = [("RUN SQL script: " ++ path_str p)%string]
  /\ count is_fetchall d = 0
  /\ count is_execute d <= 1
  /\ (r = Ok tt <-> exists sql cur, In (EvExecute con sql (Ok cur)) d).
Proof.
  intros Hrun. apply script_runs in Hrun.
  destruct Hrun as [rr e Hd|rr sql e Hd|rr sql cur Hd];
    (split; [reflexivity|]); (split; [reflexivity|]);
    (split; [unfold count; simpl; lia|]); split;
    try discriminate; trivial.
  - intros (q & c & [H|[H|[]]]); discriminate.
  - intros (q & c & [H|[H|[H|[]]]]); discriminate.
  - intros _. exists sql, cur. simpl. auto.
Qed.

(** The load script is answered with a result that cannot be fetched:
    run as a script it returns, run as a query it raises. *)
Lemma script_discards_result_witness :
  cur_fetch (mkCursor (Raise (DuckDBError "Conversion Error")) [])
  = Raise (DuckDBError "Conversion Error")
  /\ fst (run_sql_query Disk.env 1%N (LOAD_DATA_SQL Scenario.g)
            (Disk.start MoreScenarios.unfetchable_load))
     = Raise (DuckDBError "Conversion Error")
  /\ fst (run_sql_script Disk.env 1%N (LOAD_DATA_SQL Scenario.g)
            (Disk.start MoreScenarios.unfetchable_load))
     = Ok tt
  /\ log_lines
       (trace (snd (run_sql_script Disk.env 1%N (LOAD_DATA_SQL Scenario.g)
                      (Disk.start MoreScenarios.unfetchable_load))))
     = [("RUN SQL script: " ++ path_str (LOAD_DATA_SQL Scenario.g))%string]
  /\ count is_fetchall
       (trace (snd (run_sql_script Disk.env 1%N (LOAD_DATA_SQL Scenario.g)
                      (Disk.start MoreScenarios.unfetchable_load)))) = 0
  /\ count is_execute
       (trace (snd (run_sql_script Disk.env 1%N (LOAD_DATA_SQL Scenario.g)
                      (Disk.start MoreScenarios.unfetchable_load)))) <= 1
  /\ (fst (run_sql_script Disk.env 1%N (LOAD_DATA_SQL Scenario.g)
             (Disk.start MoreScenarios.unfetchable_load)) = Ok tt
      <-> exists sql cur,
            In (EvExecute 1%N sql (Ok cur))
               (trace (snd (run_sql_script Disk.env 1%N (LOAD_DATA_SQL Scenario.g)
                              (Disk.start MoreScenarios.unfetchable_load))))).
Proof.
  split; [reflexivity|]. split; [reflexivity|]. split; [reflexivity|].
  apply (script_discards_result Disk.env 1%N (LOAD_DATA_SQL Scenario.g)
           (Disk.start MoreScenarios.unfetchable_load)
           (snd (run_sql_script Disk.env 1%N (LOAD_DATA_SQL Scenario.g)
                   (Disk.start MoreScenarios.unfetchable_load)))).
  split; vm_compute; reflexivity.
Defined.

(** X5: a run of [run_sql_query] that raises has logged the empty line
    and the announcement and nothing else: no title, no header and no row
    of a report, also when it is the fetch that raised; and the call that
    raised is its last call. *)
Theorem failed_query_logs_no_report (env : Env) (con : Conn) (p : Path)
    (w w' : World (St env)) (d : list Event) (e : Exn) :
  runs (run_sql_query env con p) w d (Raise e) w' ->
  log_lines d = [ ""; ("RUN SQL query: " ++ path_str p)%string ]
  /\ exists pre ev, d = pre ++ [ev] /\ exn_of ev = Some e /\ Forall quiet pre.
Proof.
  intros Hrun. apply query_runs in Hrun.
  pose proof (query_trace_halted _ _ _ _ Hrun) as Hh. simpl in Hh.
  destruct Hh as (pre & ev & Hd & Hq & Hx).
  split; [|now exists pre, ev].
  clear Hd Hq Hx.
  inversion Hrun; reflexivity.
Qed.

(** The counts query file cannot be decoded. *)
Lemma failed_query_logs_no_report_witness :
  log_lines
    (trace (snd (run_sql_query Disk.env 1%N (COUNTS_SQL Scenario.g)
                   (Disk.start Scenario.undecodable_counts))))
  = [ ""; ("RUN SQL query: " ++ path_str (COUNTS_SQL Scenario.g))%string ]
  /\ exists pre ev,
       trace (snd (run_sql_query Disk.env 1%N (COUNTS_SQL Scenario.g)
                     (Disk.start Scenario.undecodable_counts)))
       = pre ++ [ev]
       /\ exn_of ev = Some UnicodeDecodeError /\ Forall quiet pre.
Proof.
  apply (failed_query_logs_no_report Disk.env 1%N (COUNTS_SQL Scenario.g)
           (Disk.start Scenario.undecodable_counts)
           (snd (run_sql_query Disk.env 1%N (COUNTS_SQL Scenario.g)
                   (Disk.start Scenario.undecodable_counts)))).
  split; vm_compute; reflexivity.
Defined.

Lemma join_two sep x y l :
  join sep (x :: y :: l) = (x ++ sep ++ join sep (y :: l))%string.
Proof. reflexivity. Qed.

Lemma string_app_assoc (a b c : string) :
  ((a ++ b) ++ c = a ++ (b ++ c))%string.
Proof. induction a; simpl; congruence. Qed.

(** X6: the line of a row is not escaped or quoted.  A row whose first
    value is the text [a ++ ", " ++ b] gives the same line as the row that
    has the two values [a] and [b] in its place, and [None] gives the same
    line as the text ["None"]: the report does not tell such rows
    apart. *)
Theorem row_line_not_escaped (a b : string) (rest : Row) :
  join ", " (map str (VStr (a ++ ", " ++ b) :: rest))
  = join ", " (map str (VStr a :: VStr b :: rest))
  /\ join ", " (map str (VNone :: rest))
     = join ", " (map str (VStr "None" :: rest)).
Proof.
  split; [|reflexivity].
  destruct rest as [|v rest]; simpl map.
  - simpl. reflexivity.
  - rewrite !join_two. simpl str.
    now rewrite !string_app_assoc.
Qed.

(* ===================================================================== *)
(** * Reads are announced *)
(* ===================================================================== *)

Lemma announced_app d1 : forall prev d2,
  announced prev (d1 ++ d2)
  <-> announced prev d1 /\ announced (last_call prev d1) d2.
Proof.
  induction d1 as [|ev d1 IH]; intros prev d2.
  - simpl. unfold last_call. simpl. tauto.
  - rewrite last_call_cons. simpl. rewrite IH. tauto.
Qed.

Lemma announced_info {A} (f : A -> string) xs :
  forall prev, announced prev (map (fun x => EvInfo (f x)) xs).
Proof. induction xs as [|x xs IH]; intros prev; simpl; auto. Qed.

Lemma script_trace_announced con p d r :
  script_trace con p d r -> forall prev, announced prev d.
Proof.
  destruct 1; intros prev; simpl; repeat split; trivial;
    eexists; (split; [reflexivity|]); left; reflexivity.
Qed.

Lemma query_trace_announced con p d r :
  query_trace con p d r -> forall prev, announced prev d.
Proof.
  destruct 1; intros prev;
    try (apply announced_app; split; [|apply announced_info]);
    simpl; repeat split; trivial;
    eexists; (split; [reflexivity|]); right; reflexivity.
Qed.

Lemma and_then_announced (T1 T2 : list Event -> Outcome unit -> Prop) :
  (forall d r, T1 d r -> forall prev, announced prev d) ->
  (forall d r, T2 d r -> forall prev, announced prev d) ->
  forall d r, and_then T1 T2 d r -> forall prev, announced prev d.
Proof.
  intros H1 H2 d r [d1 e Hd|d1 d2 r' Hd1 Hd2] prev; eauto.
  apply announced_app. split; eauto.
Qed.

Lemma body_trace_announced con g :
  forall d r, body_trace con g d r -> forall prev, announced prev d.
Proof.
  unfold body_trace.
  repeat apply and_then_announced;
    eauto using script_trace_announced, query_trace_announced.
Qed.

Lemma main_trace_announced g d r : main_trace g d r -> announced None d.
Proof.
  intros [e|e|con body rb rc Hb]; simpl; auto.
  repeat split. apply announced_app. split.
  - eapply body_trace_announced; eauto.
  - simpl. auto.
Qed.

(** X7: in every run of [main], each read of a SQL file comes right after
    the log line that announces that file, as a script or as a query: no
    file is read unannounced. *)
Theorem reads_are_announced (env : Env) (g : Constants)
    (w w' : World (St env)) (d : list Event) (r : Outcome unit)
    (pre post : list Event) (p : Path) (rr : Outcome (list byte)) :
  runs (main env g) w d r w' ->
  d = pre ++ EvRead p rr :: post ->
  exists pre' a, pre = pre' ++ [a] /\ announces p a.
Proof.
  intros Hrun ->. apply main_runs, main_trace_announced in Hrun.
  apply announced_app in Hrun. destruct Hrun as [_ Hr].
  simpl in Hr. destruct Hr as [(a & Ha & Hp) _].
  apply last_call_some in Ha. destruct Ha as [[_ H]|(pre' & ->)].
  - discriminate.
  - now exists pre', a.
Qed.

(** The first read of the healthy run is the fifth call. *)
Lemma reads_are_announced_witness :
  exists pre' a,
    firstn 4 (trace (snd (main Disk.env Scenario.g (Disk.start Scenario.healthy))))
    = pre' ++ [a]
    /\ announces (CREATE_TABLES_SQL Scenario.g) a.
Proof.
  apply (reads_are_announced Disk.env Scenario.g
           (Disk.start Scenario.healthy)
           (snd (main Disk.env Scenario.g (Disk.start Scenario.healthy)))
           (trace (snd (main Disk.env Scenario.g (Disk.start Scenario.healthy))))
           (fst (main Disk.env Scenario.g (Disk.start Scenario.healthy)))
           _
           (skipn 5 (trace (snd (main Disk.env Scenario.g (Disk.start Scenario.healthy)))))
           _
           (Ok (list_byte_of_string "CREATE TABLE branch (id INTEGER PRIMARY KEY)"))).
  - split; vm_compute; reflexivity.
  - vm_compute. reflexivity.
Defined.

(* ===================================================================== *)
(** * The log of a run that returns *)
(* ===================================================================== *)

Lemma and_then_returns (T1 T2 : list Event -> Outcome unit -> Prop) d :
  and_then T1 T2 d (Ok tt) ->
  exists d1 d2, d = d1 ++ d2 /\ T1 d1 (Ok tt) /\ T2 d2 (Ok tt).
Proof.
  intros H. inversion H; subst. now exists d1, d2.
Qed.

Lemma script_trace_returns con p d :
  script_trace con p d (Ok tt) ->
  exists rr sql cur,
    d = [EvInfo ("RUN SQL script: " ++ path_str p); EvRead p rr;
         EvExecute con sql (Ok cur)].
Proof. intros H. inversion H; subst. now exists rr, sql, cur. Qed.

Lemma query_trace_returns con p d :
  query_trace con p d (Ok tt) ->
  exists rr sql cur rows,
    cur_fetch cur = Ok rows
    /\ d = [EvInfo ""; EvInfo ("RUN SQL query: " ++ path_str p); EvRead p rr;
            EvExecute con sql (Ok cur); EvFetchall (Ok rows);
            EvInfo delimiter; EvInfo (name p); EvInfo delimiter;
            EvInfo (join ", " (map col_name (cur_description cur)))]
           ++ map (fun row => EvInfo (join ", " (map str row))) rows.
Proof. intros H. inversion H; subst. now exists rr, sql, cur, rows. Qed.

Lemma count_info {A} (h : Event -> bool) (f : A -> string) xs :
  (forall m, h (EvInfo m) = false) ->
  count h (map (fun x => EvInfo (f x)) xs) = 0.
Proof. intros H. apply count_none, Forall_info, H. Qed.

(** X8: a run of [main] that returns has read four files, executed four
    texts and fetched twice, and its log is: the announcement of the
    create-tables script, the announcement of the load-data script, the
    report of the counts query and the report of the KPI query, each
    report made of the cursor its execution returned and the rows
    fetched from it. *)
Theorem returning_run_log (env : Env) (g : Constants)
    (w w' : World (St env)) (d : list Event) :
  runs (main env g) w d (Ok tt) w' ->
  count is_read d = 4 /\ count is_execute d = 4 /\ count is_fetchall d = 2
  /\ exists con sql3 cur3 rows3 sql4 cur4 rows4,
       In (EvExecute con sql3 (Ok cur3)) d /\ cur_fetch cur3 = Ok rows3
       /\ In (EvExecute con sql4 (Ok cur4)) d /\ cur_fetch cur4 = Ok rows4
       /\ log_lines d
          = [ ("RUN SQL script: " ++ path_str (CREATE_TABLES_SQL g))%string;
              ("RUN SQL script: " ++ path_str (LOAD_DATA_SQL g))%string ]
            ++ [ ""; ("RUN SQL query: " ++ path_str (COUNTS_SQL g))%string;
                 delimiter; name (COUNTS_SQL g); delimiter;
                 join ", " (map col_name (cur_description cur3)) ]
            ++ map (fun row => join ", " (map str row)) rows3
            ++ [ ""; ("RUN SQL query: " ++ path_str (KPI_SQL g))%string;
                 delimiter; name (KPI_SQL g); delimiter;
                 join ", " (map col_name (cur_description cur4)) ]
            ++ map (fun row => join ", " (map str row)) rows4.
Proof.
  intros Hrun. apply main_runs in Hrun.
  inversion Hrun as [| |con body rb rc Hb Hd Hr]; subst.
  destruct rc as [[]|]; [|discriminate]. simpl in Hr. subst rb.
  unfold body_trace in Hb.
  apply and_then_returns in Hb. destruct Hb as (d1 & b1 & -> & H1 & Hb).
  apply and_then_returns in Hb. destruct Hb as (d2 & b2 & -> & H2 & Hb).
  apply and_then_returns in Hb. destruct Hb as (d3 & d4 & -> & H3 & H4).
  apply script_trace_returns in H1. destruct H1 as (rr1 & sql1 & cur1 & ->).
  apply script_trace_returns in H2. destruct H2 as (rr2 & sql2 & cur2 & ->).
  apply query_trace_returns in H3.
  destruct H3 as (rr3 & sql3 & cur3 & rows3 & Hf3 & ->).
  apply query_trace_returns in H4.
  destruct H4 as (rr4 & sql4 & cur4 & rows4 & Hf4 & ->).
  repeat split.
  - rewrite !count_app, !count_info by reflexivity. reflexivity.
  - rewrite !count_app, !count_info by reflexivity. reflexivity.
  - rewrite !count_app, !count_info by reflexivity. reflexivity.
  - exists con, sql3, cur3, rows3, sql4, cur4, rows4.
    repeat split; trivial.
    + apply in_or_app. right. apply in_or_app. left.
      apply in_or_app. right. apply in_or_app. right.
      apply in_or_app. left. apply in_or_app. left. simpl. auto.
    + apply in_or_app. right. apply in_or_app. left.
      apply in_or_app. right. apply in_or_app. right.
      apply in_or_app. right. apply in_or_app. left. simpl. auto.
    + rewrite !log_lines_app, !log_lines_info. simpl.
      rewrite <- !app_assoc. simpl. now rewrite app_nil_r.
Qed.

Lemma returning_run_log_witness :
  count is_read
    (trace (snd (main Disk.env Scenario.g (Disk.start Scenario.healthy)))) = 4
  /\ count is_execute
       (trace (snd (main Disk.env Scenario.g (Disk.start Scenario.healthy)))) = 4
  /\ count is_fetchall
       (trace (snd (main Disk.env Scenario.g (Disk.start Scenario.healthy)))) = 2
  /\ exists con sql3 cur3 rows3 sql4 cur4 rows4,
       In (EvExecute con sql3 (Ok cur3))
          (trace (snd (main Disk.env Scenario.g (Disk.start Scenario.healthy))))
       /\ cur_fetch cur3 = Ok rows3
       /\ In (EvExecute con sql4 (Ok cur4))
            (trace (snd (main Disk.env Scenario.g (Disk.start Scenario.healthy))))
       /\ cur_fetch cur4 = Ok rows4
       /\ log_lines
            (trace (snd (main Disk.env Scenario.g (Disk.start Scenario.healthy))))
          = [ ("RUN SQL script: " ++ path_str (CREATE_TABLES_SQL Scenario.g))%string;
              ("RUN SQL script: " ++ path_str (LOAD_DATA_SQL Scenario.g))%string ]
            ++ [ ""; ("RUN SQL query: " ++ path_str (COUNTS_SQL Scenario.g))%string;
                 delimiter; name (COUNTS_SQL Scenario.g); delimiter;
                 join ", " (map col_name (cur_description cur3)) ]
            ++ map (fun row => join ", " (map str row)) rows3
            ++ [ ""; ("RUN SQL query: " ++ path_str (KPI_SQL Scenario.g))%string;
                 delimiter; name (KPI_SQL Scenario.g); delimiter;
                 join ", " (map col_name (cur_description cur4)) ]
            ++ map (fun row => join ", " (map str row)) rows4.
Proof.
  apply (returning_run_log Disk.env Scenario.g
           (Disk.start Scenario.healthy)
           (snd (main Disk.env Scenario.g (Disk.start Scenario.healthy)))).
  split; vm_compute; reflexivity.
Defined.

(* ===================================================================== *)
(** * Carriage returns *)
(* ===================================================================== *)

Lemma universal_newlines_no_cr_step s :
  has_cr (universal_newlines s) = false
  /\ forall c, has_cr (universal_newlines (String c s)) = false.
Proof.
  induction s as [|a t [IH1 IH2]].
  - split; [reflexivity|]. intros c. simpl.
    destruct (Ascii.eqb c CR) eqn:Hc; simpl; [reflexivity|now rewrite Hc].
  - split; [apply IH2|]. intros c.
    change (universal_newlines (String c (String a t)))
      with (if Ascii.eqb c CR
            then String LF (if Ascii.eqb a LF
                            then universal_newlines t
                            else universal_newlines (String a t))
            else String c (universal_newlines (String a t))).
    destruct (Ascii.eqb c CR) eqn:Hc.
    + change (has_cr (String LF ?x)) with (has_cr x).
      destruct (Ascii.eqb a LF); [exact IH1|apply IH2].
    + simpl has_cr. rewrite Hc. apply IH2.
Qed.

(** Text read from a file holds no carriage return. *)
Lemma universal_newlines_no_cr s : has_cr (universal_newlines s) = false.
Proof. apply universal_newlines_no_cr_step. Qed.

(** Text without carriage returns is read as it is. *)
Lemma universal_newlines_id s : has_cr s = false -> universal_newlines s = s.
Proof.
  induction s as [|c s IH]; simpl; trivial.
  intros H. apply orb_false_iff in H. destruct H as [Hc Hs].
  rewrite Hc. now rewrite IH.
Qed.

(** X9: in every run of [main], a text given to the engine holds no
    carriage return; it comes from a file that was read, and when the
    bytes of that file hold no carriage return, the text is these bytes,
    one for one. *)
Theorem executed_text_has_no_cr (env : Env) (g : Constants)
    (w w' : World (St env)) (d : list Event) (r : Outcome unit)
    (con : Conn) (sql : string) (rx : Outcome Cursor) :
  runs (main env g) w d r w' ->
  In (EvExecute con sql rx) d ->
  has_cr sql = false
  /\ exists p bs,
       In (EvRead p (Ok bs)) d
       /\ utf8_valid bs = true
       /\ (has_cr (string_of_list_byte bs) = false ->
           list_byte_of_string sql = bs).
Proof.
  intros Hrun Hin. apply main_runs, main_trace_decoded in Hrun.
  destruct (Hrun _ _ _ Hin) as (p & bs & s & Hr & Hd & ->).
  split; [apply universal_newlines_no_cr|].
  exists p, bs. split; [exact Hr|].
  unfold utf8_decode in Hd.
  destruct (utf8_valid bs); [|discriminate].
  injection Hd as <-. split; trivial.
  intros Hcr. rewrite (universal_newlines_id _ Hcr).
  apply list_byte_of_string_of_list_byte.
Qed.

(** The KPI query file has two lines ending in carriage return and line
    feed: the engine is given the two lines ending in line feed. *)
Lemma executed_text_has_no_cr_witness :
  In (EvExecute 1%N (String "S" (String "E" (String "L" (String "E" (String "C"
        (String "T" (String LF (String "1" (String LF EmptyString)))))))))
        (Ok (mkCursor (Ok []) [])))
     (trace (snd (main Disk.env Scenario.g (Disk.start MoreScenarios.crlf_kpi))))
  /\ has_cr (String "S" (String "E" (String "L" (String "E" (String "C"
        (String "T" (String LF (String "1" (String LF EmptyString))))))))) = false
  /\ exists p bs,
       In (EvRead p (Ok bs))
          (trace (snd (main Disk.env Scenario.g (Disk.start MoreScenarios.crlf_kpi))))
       /\ utf8_valid bs = true
       /\ (has_cr (string_of_list_byte bs) = false ->
           list_byte_of_string
             (String "S" (String "E" (String "L" (String "E" (String "C"
                (String "T" (String LF (String "1" (String LF EmptyString)))))))))
           = bs).
Proof.
  assert (H : In (EvExecute 1%N (String "S" (String "E" (String "L" (String "E" (String "C"
        (String "T" (String LF (String "1" (String LF EmptyString)))))))))
        (Ok (mkCursor (Ok []) [])))
     (trace (snd (main Disk.env Scenario.g (Disk.start MoreScenarios.crlf_kpi))))).
  { vm_compute. find_in. }
  split; [exact H|].
  apply (executed_text_has_no_cr Disk.env Scenario.g
           (Disk.start MoreScenarios.crlf_kpi)
           (snd (main Disk.env Scenario.g (Disk.start MoreScenarios.crlf_kpi)))
           (trace (snd (main Disk.env Scenario.g (Disk.start MoreScenarios.crlf_kpi))))
           (fst (main Disk.env Scenario.g (Disk.start MoreScenarios.crlf_kpi)))
           1%N _ (Ok (mkCursor (Ok []) []))).
  - split; vm_compute; reflexivity.
  - exact H.
Defined.

(* ===================================================================== *)
(** * More about the path resolver *)
(* ===================================================================== *)

Lemma parent_parts_length p :
  List.length (parts (parent p)) = pred (List.length (parts p)).
Proof.
  unfold parent. simpl. induction (parts p) as [|x l IH]; [reflexivity|].
  destruct l as [|y l]; [reflexivity|].
  change (removelast (x :: y :: l)) with (x :: removelast (y :: l)).
  simpl List.length in *. now rewrite IH.
Qed.

(** Above its last component a path has only its anchor. *)
Lemma ancestor_top i : forall p,
  List.length (parts p) <= i -> ancestor i p = mkPath (absolute p) [].
Proof.
  induction i as [|i IH]; intros p Hp; simpl.
  - destruct p as [a [|x l]]; [reflexivity|]. simpl in Hp. lia.
  - rewrite IH; [reflexivity|]. rewrite parent_parts_length. lia.
Qed.

Lemma map_seq_constant {A} (f : nat -> A) (x : A) k : forall a,
  (forall i, a <= i -> f i = x) -> map f (seq a k) = repeat x k.
Proof.
  induction k as [|k IH]; intros a H; simpl; [reflexivity|].
  rewrite (H a) by lia. f_equal. apply IH. intros i Hi. apply H. lia.
Qed.

(** X10: the walk does not stop at the top of the file system.  When the
    resolved starting directory is [n] levels deep, [n] at most ten, and
    no directory probed holds the marker, the walk probes the [n]
    directories from the start upward and then probes the top directory
    again and again, [10 - n] times, before it falls back. *)
Theorem walk_probes_top_repeatedly (env : Env) (start cur : Path)
    (w : World (St env)) (n : nat) :
  fs_resolve env (ext w) start = Ok cur ->
  List.length (parts cur) = n ->
  n <= 10 ->
  (forall i, i < 10 -> marked env (ext w) cur i = Ok false) ->
  find_repo_root env start w
  = (Ok cur,
     mkWorld (ext w)
       (trace w
        ++ map (probe cur (Ok false)) (seq 0 n)
        ++ repeat
             (EvExists (mkPath (absolute cur) [] // "pyproject.toml") (Ok false))
             (10 - n))).
Proof.
  intros Hcur Hn Hle Hnone.
  destruct (find_repo_root_cases env start w)
    as [(e0 & Hres & _)
       |(cur0 & Hres & [(k & Hk & Hm & _)
                       |[(k & e & Hk & Hm & _)|(_ & Hrun)]])];
    [congruence| | |];
    assert (cur0 = cur) by congruence; subst cur0.
  - rewrite (Hnone k Hk) in Hm. discriminate.
  - rewrite (Hnone k Hk) in Hm. discriminate.
  - rewrite Hrun. do 3 f_equal.
    replace 10 with (n + (10 - n)) at 1 by lia.
    rewrite seq_app, map_app. f_equal. simpl.
    apply map_seq_constant. intros i Hi. unfold probe.
    rewrite ancestor_top by lia. reflexivity.
Qed.

(** From [/home/user/work], three levels deep, on the disk without
    markers: three probes going up, then seven of the top directory. *)
Lemma walk_probes_top_repeatedly_witness :
  find_repo_root Disk.env (mkPath true ["home"; "user"; "work"])
    (Disk.start Scenario.bare)
  = (Ok (mkPath true ["home"; "user"; "work"]),
     mkWorld (Scenario.bare : St Disk.env)
       ([]
        ++ map (probe (mkPath true ["home"; "user"; "work"]) (Ok false)) (seq 0 3)
        ++ repeat (EvExists (mkPath true [] // "pyproject.toml") (Ok false)) (10 - 3))).
Proof.
  apply (walk_probes_top_repeatedly Disk.env (mkPath true ["home"; "user"; "work"])
           (mkPath true ["home"; "user"; "work"])
           (Disk.start Scenario.bare) 3).
  - reflexivity.
  - reflexivity.
  - lia.
  - intros i Hi. do 10 (destruct i as [|i]; [reflexivity|]). lia.
Defined.

(** X11: the resolver gives the same answer when asked again from its
    answer.  If [find_repo_root] returns [root], and [root] is its own
    resolved form, then in the same outside state [find_repo_root] from
    [root] returns [root]. *)
Theorem find_repo_root_idempotent (env : Env) (start root : Path)
    (w w2 : World (St env)) :
  fst (find_repo_root env start w) = Ok root ->
  ext w2 = ext w ->
  fs_resolve env (ext w) root = Ok root ->
  fst (find_repo_root env root w2) = Ok root.
Proof.
  intros Hfirst Hext Hres.
  assert (Hroot :
            marked env (ext w) root 0 = Ok true
            \/ forall i, i < 10 -> marked env (ext w) root i = Ok false).
  { destruct (find_repo_root_cases env start w)
      as [(e0 & _ & Hrun)
         |(cur0 & _ & [(k & Hk & Hm & _ & Hrun)
                      |[(k & e & _ & _ & _ & Hrun)|(Hall & Hrun)]])];
      rewrite Hrun in Hfirst; try discriminate; injection Hfirst as <-.
    - left. exact Hm.
    - right. exact Hall. }
  destruct (find_repo_root_cases env root w2)
    as [(e0 & Hres2 & _)
       |(cur2 & Hres2 & Hcases)];
    rewrite Hext in *; [congruence|].
  assert (cur2 = root) by congruence. subst cur2.
  destruct Hcases as [(k & Hk & Hm & Hlt & Hrun)
                     |[(k & e & Hk & Hm & Hlt & Hrun)|(Hall & Hrun)]];
    rewrite Hrun; simpl.
  - destruct Hroot as [H0|Hnone].
    + destruct k as [|k]; [reflexivity|].
      rewrite (Hlt 0) in H0; [discriminate|lia].
    + rewrite (Hnone k Hk) in Hm. discriminate.
  - destruct Hroot as [H0|Hnone].
    + destruct k as [|k]; [congruence|].
      rewrite (Hlt 0) in H0; [discriminate|lia].
    + rewrite (Hnone k Hk) in Hm. discriminate.
  - reflexivity.
Qed.

Lemma find_repo_root_idempotent_witness :
  fst (find_repo_root Disk.env Scenario.root (Disk.start Scenario.healthy))
  = Ok Scenario.root.
Proof.
  apply (find_repo_root_idempotent Disk.env (parent Scenario.file) Scenario.root
           (Disk.start Scenario.healthy) (Disk.start Scenario.healthy)).
  - vm_compute; reflexivity.
  - reflexivity.
  - reflexivity.
Defined.
